(** * End-of-life utilities of the image catalogue: [src/image/utils/eol_utils.py]

    A shallow embedding of the four functions of the module

      - [is_track_eol]
      - [get_base_eol]
      - [generate_base_eol_exceed_warning]
      - [track_eol_exceeds_base_eol]

    together with the parts of the Python runtime they rest on
    ([str.split], [str.strip], [str.startswith], [dict(zip(..))],
    [datetime.strptime], [datetime.strftime], the ordering of aware
    datetimes, [re.match] for the one pattern of the module).

    Conventions.
    - A Python [str] is a [string]; every [ascii] stands for one code point
      below 256.  On that range [\d] is [0-9], the case-insensitive partners
      of [T] and [Z] are [t] and [z], and the white space of [str.strip] is
      the set given by [is_space].
    - A Python [dict[str, str]] is a [gmap string string].
    - All datetimes of the module are aware datetimes whose [tzinfo] is the
      singleton [timezone.utc]; the record [datetime] therefore carries no
      zone, and the comparison is the comparison Python performs for two
      datetimes that share their [tzinfo]: the lexicographic one on
      (year, month, day, hour, minute, second, microsecond).
    - The metadata feed and the clock are the two things the module reads
      from outside; the logger is the one thing it writes to.  They are the
      [world] and the [event] trace of the monad [M]. *)

From Stdlib Require Import ZArith Lia Bool Ascii String DecimalString.
From stdpp Require Import gmap strings list fin_maps.

Local Open Scope string_scope.
Local Open Scope Z_scope.

(** ** Strings *)

Module Str.

Definition chr (n : nat) : ascii := ascii_of_nat n.
Definition ord (c : ascii) : Z := Z.of_nat (nat_of_ascii c).

Definition nl : ascii := chr 10.
Definition NL : string := String nl EmptyString.

(** The double quote, as a text of one character. *)
Definition DQ : string := String (chr 34) EmptyString.

(** [\d] *)
Definition is_digit (c : ascii) : bool := (48 <=? ord c) && (ord c <=? 57).

(** [c] lies in the character class [[lo-hi]] of decimal digits. *)
Definition in_range (lo hi : Z) (c : ascii) : bool :=
  (48 + lo <=? ord c) && (ord c <=? 48 + hi).

Definition digit_val (c : ascii) : Z := ord c - 48.

Definition digit_chr (n : Z) : ascii := chr (Z.to_nat (48 + n)).

(** White space as [str.strip()] sees it, below code point 256. *)
Definition is_space (c : ascii) : bool :=
  let n := ord c in
  ((9 <=? n) && (n <=? 13)) || ((28 <=? n) && (n <=? 32))
  || (n =? 133) || (n =? 160).

(** [s.startswith(p)] *)
Fixpoint startswith (p s : string) : bool :=
  match p, s with
  | EmptyString, _ => true
  | String a p', String b s' => Ascii.eqb a b && startswith p' s'
  | String _ _, EmptyString => false
  end.

(** [s.split(sep)] for a separator of one character. *)
Fixpoint split (sep : ascii) (s : string) : list string :=
  match s with
  | EmptyString => [EmptyString]
  | String c r =>
      if Ascii.eqb c sep then EmptyString :: split sep r
      else match split sep r with
           | h :: t => String c h :: t
           | [] => [String c EmptyString]
           end
  end.

(** [xs[-1]] on the non-empty list a split returns. *)
Definition last_item (xs : list string) : string := List.last xs EmptyString.

Fixpoint lstrip (s : string) : string :=
  match s with
  | String c r => if is_space c then lstrip r else s
  | EmptyString => EmptyString
  end.

Fixpoint rstrip (s : string) : string :=
  match s with
  | EmptyString => EmptyString
  | String c r =>
      match rstrip r with
      | EmptyString => if is_space c then EmptyString else String c EmptyString
      | r' => String c r'
      end
  end.

(** [s.strip()] *)
Definition strip (s : string) : string := rstrip (lstrip s).

(** [sep.join(xs)] *)
Fixpoint join (sep : string) (xs : list string) : string :=
  match xs with
  | [] => EmptyString
  | [x] => x
  | x :: rest => x ++ sep ++ join sep rest
  end.

(** [c in s] *)
Fixpoint contains (c : ascii) (s : string) : bool :=
  match s with
  | EmptyString => false
  | String a r => Ascii.eqb a c || contains c r
  end.

(** Two decimal digits, zero padded ([%02d]). *)
Definition pad2 (n : Z) : string :=
  String (digit_chr (n / 10 mod 10)) (String (digit_chr (n mod 10)) EmptyString).

(** Four decimal digits, zero padded ([%04d]). *)
Definition pad4 (n : Z) : string := pad2 (n / 100) ++ pad2 (n mod 100).

(** The decimal digits of an integer, with no padding ([%d]). *)
Definition decimal (n : Z) : string := NilZero.string_of_int (Z.to_int n).

(** Six decimal digits, zero padded ([%06d]). *)
Definition pad6 (n : Z) : string := pad2 (n / 10000) ++ pad4 (n mod 10000).

End Str.

(** ** Regular expressions

    The few constructs the patterns of the module need, written with
    continuations: a pattern takes the pattern that follows it and the text,
    and [alt] is the ordered choice of a backtracking matcher. *)

Module Re.
Section Pattern.
Context {A : Type}.

Definition cont : Type := string -> option A.

Definition alt (p q : cont) : cont :=
  fun s => match p s with Some r => Some r | None => q s end.

(** A literal character (one with no other case). *)
Definition lit (c : ascii) (k : cont) : cont :=
  fun s => match s with
           | String a r => if Ascii.eqb a c then k r else None
           | EmptyString => None
           end.

(** A literal letter under [re.IGNORECASE]: [c] or its other case [c']. *)
Definition lit_ci (c c' : ascii) (k : cont) : cont :=
  fun s => match s with
           | String a r => if Ascii.eqb a c || Ascii.eqb a c' then k r else None
           | EmptyString => None
           end.

(** Two characters, from the classes [p1] and [p2]; the group is read by [int]. *)
Definition cls2 (p1 p2 : ascii -> bool) (k : Z -> cont) : cont :=
  fun s => match s with
           | String a (String b r) =>
               if p1 a && p2 b
               then k (10 * Str.digit_val a + Str.digit_val b) r else None
           | _ => None
           end.

(** One character of the class [p]. *)
Definition cls1 (p : ascii -> bool) (k : Z -> cont) : cont :=
  fun s => match s with
           | String a r => if p a then k (Str.digit_val a) r else None
           | EmptyString => None
           end.

(** A blank and one character of the class [p]; [int] skips the blank. *)
Definition blank1 (p : ascii -> bool) (k : Z -> cont) : cont :=
  fun s => match s with
           | String a (String b r) =>
               if Ascii.eqb a " "%char && p b then k (Str.digit_val b) r else None
           | _ => None
           end.

(** [\d{1,2}], greedy: two digits are tried before one. *)
Definition digits_1_2 (k : cont) : cont :=
  alt (cls2 Str.is_digit Str.is_digit (fun _ => k)) (cls1 Str.is_digit (fun _ => k)).
End Pattern.
Arguments cont : clear implicits.

(** [$] without [re.MULTILINE]: the end of the text, or the position just
    before a newline that ends the text. *)
Definition dollar (s : string) : option unit :=
  match s with
  | EmptyString => Some tt
  | String c EmptyString => if Ascii.eqb c Str.nl then Some tt else None
  | _ => None
  end.
End Re.

(** ** Dates and times

    The part of [datetime] the module uses.  [datetime.strptime] first turns the
    format into a regular expression (one named group per directive, compiled
    with [re.IGNORECASE]), matches it at the start of the text, refuses text
    left over after the match, converts the groups with [int] and finally
    builds the value, whose constructor checks the ranges.  Each of these
    failures is a [ValueError]; [strptime] below returns [None] for them. *)

Module DT.

Record datetime : Type := mk_datetime {
  year : Z; month : Z; day : Z;
  hour : Z; minute : Z; second : Z; microsecond : Z
}.

Definition fields (d : datetime) : list Z :=
  [year d; month d; day d; hour d; minute d; second d; microsecond d].

(** Comparison of two tuples of integers, as Python compares tuples. *)
Fixpoint cmp_tuple (a b : list Z) : comparison :=
  match a, b with
  | [], [] => Eq
  | [], _ :: _ => Lt
  | _ :: _, [] => Gt
  | x :: a', y :: b' =>
      match x ?= y with
      | Eq => cmp_tuple a' b'
      | c => c
      end
  end.

(** [a < b] and [a > b] on datetimes that share their [tzinfo]. *)
Definition lt (a b : datetime) : bool :=
  match cmp_tuple (fields a) (fields b) with Lt => true | _ => false end.
Definition gt (a b : datetime) : bool :=
  match cmp_tuple (fields a) (fields b) with Gt => true | _ => false end.

Definition is_leap (y : Z) : bool :=
  (y mod 4 =? 0) && (negb (y mod 100 =? 0) || (y mod 400 =? 0)).

Definition days_in_month (y m : Z) : Z :=
  if m =? 2 then (if is_leap y then 29 else 28)
  else if (m =? 4) || (m =? 6) || (m =? 9) || (m =? 11) then 30
  else 31.

(** The checks of the [date] constructor ([MINYEAR = 1], [MAXYEAR = 9999]). *)
Definition valid_date (y m d : Z) : bool :=
  (1 <=? y) && (y <=? 9999) && (1 <=? m) && (m <=? 12)
  && (1 <=? d) && (d <=? days_in_month y m).

(** The checks of the [time] part of the [datetime] constructor. *)
Definition valid_time (h mi s us : Z) : bool :=
  (0 <=? h) && (h <=? 23) && (0 <=? mi) && (mi <=? 59)
  && (0 <=? s) && (s <=? 59) && (0 <=? us) && (us <=? 999999).

Definition valid (d : datetime) : bool :=
  valid_date (year d) (month d) (day d)
  && valid_time (hour d) (minute d) (second d) (microsecond d).

(** The position of an instant on the time line: proleptic Gregorian
    ordinal of the day (as [date.toordinal]), then microseconds. *)
Definition days_before_year (y : Z) : Z :=
  let p := y - 1 in p * 365 + p / 4 - p / 100 + p / 400.

Definition days_before_month (y m : Z) : Z :=
  List.nth (Z.to_nat m) [0; 0; 31; 59; 90; 120; 151; 181; 212; 243; 273; 304; 334] 0
  + (if (2 <? m) && is_leap y then 1 else 0).

Definition toordinal (d : datetime) : Z :=
  days_before_year (year d) + days_before_month (year d) (month d) + day d.

Definition to_micros (d : datetime) : Z :=
  (((toordinal d * 24 + hour d) * 60 + minute d) * 60 + second d) * 1000000
  + microsecond d.

(** The same calendar day at 00:00:00. *)
Definition midnight (d : datetime) : datetime :=
  mk_datetime (year d) (month d) (day d) 0 0 0 0.

(** *** The regular expression of a format *)
Import Re.

Section Directives.
Context {A : Type}.

Let r := Str.in_range.
Let d := Str.is_digit.

(** [%Y]: [\d\d\d\d] *)
Definition dir_Y (k : Z -> cont A) : cont A :=
  cls2 d d (fun hi => cls2 d d (fun lo => k (100 * hi + lo))).

(** [%m]: [1[0-2]|0[1-9]|[1-9]] *)
Definition dir_m (k : Z -> cont A) : cont A :=
  alt (cls2 (r 1 1) (r 0 2) k) (alt (cls2 (r 0 0) (r 1 9) k) (cls1 (r 1 9) k)).

(** [%d]: [3[0-1]|[1-2]\d|0[1-9]|[1-9]| [1-9]] *)
Definition dir_d (k : Z -> cont A) : cont A :=
  alt (cls2 (r 3 3) (r 0 1) k)
    (alt (cls2 (r 1 2) d k)
       (alt (cls2 (r 0 0) (r 1 9) k)
          (alt (cls1 (r 1 9) k) (blank1 (r 1 9) k)))).

(** [%H]: [2[0-3]|[0-1]\d|\d] *)
Definition dir_H (k : Z -> cont A) : cont A :=
  alt (cls2 (r 2 2) (r 0 3) k) (alt (cls2 (r 0 1) d k) (cls1 d k)).

(** [%M]: [[0-5]\d|\d] *)
Definition dir_M (k : Z -> cont A) : cont A :=
  alt (cls2 (r 0 5) d k) (cls1 d k).

(** [%S]: [6[0-1]|[0-5]\d|\d] *)
Definition dir_S (k : Z -> cont A) : cont A :=
  alt (cls2 (r 6 6) (r 0 1) k) (alt (cls2 (r 0 5) d k) (cls1 d k)).
End Directives.

(** The groups of a match and the text after it. *)
Definition groups : Type := (Z * Z * Z * Z * Z * Z) * string.

(** The regular expression of ["%Y-%m-%dT%H:%M:%SZ"], matched at the start. *)
Definition match_track_fmt : string -> option groups :=
  dir_Y (fun y => lit "-" (dir_m (fun m => lit "-" (dir_d (fun d =>
  lit_ci "T" "t" (dir_H (fun h => lit ":" (dir_M (fun mi => lit ":" (dir_S (fun s =>
  lit_ci "Z" "z" (fun rest => Some ((y, m, d, h, mi, s), rest)))))))))))))%char.

(** The regular expression of ["%Y-%m-%d"], matched at the start. *)
Definition match_distro_fmt : string -> option groups :=
  dir_Y (fun y => lit "-" (dir_m (fun m => lit "-" (dir_d (fun d =>
  fun rest => Some ((y, m, d, 0, 0, 0), rest))))))%char.

(** What follows the match: no text may remain, and the constructor of the
    value checks the calendar and the seconds (the pattern lets 60 and 61
    through). *)
Definition build (g : option groups) : option datetime :=
  match g with
  | Some ((y, m, d, h, mi, s), EmptyString) =>
      if valid_date y m d && valid_time h mi s 0
      then Some (mk_datetime y m d h mi s 0) else None
  | _ => None
  end.

(** [EOL_TRACK_FMT] and [EOL_DISTRO_FMT] *)
Inductive format : Type := EOL_TRACK_FMT | EOL_DISTRO_FMT.

Definition format_text (f : format) : string :=
  match f with
  | EOL_TRACK_FMT => "%Y-%m-%dT%H:%M:%SZ"
  | EOL_DISTRO_FMT => "%Y-%m-%d"
  end.

(** [datetime.strptime(s, f).replace(tzinfo=timezone.utc)] *)
Definition strptime (s : string) (f : format) : option datetime :=
  match f with
  | EOL_TRACK_FMT => build (match_track_fmt s)
  | EOL_DISTRO_FMT => build (match_distro_fmt s)
  end.

(** [d.strftime(EOL_DISTRO_FMT)].  [strftime] is the one of the C library, and
    the module reads the feed of an Ubuntu system: glibc prints [%Y] as the
    decimal digits of the year, with no leading zeros (the year 999 is printed
    with three digits), and [%m] and [%d] with two digits. *)
Definition strftime_distro (d : datetime) : string :=
  (Str.decimal (year d) ++ "-" ++ Str.pad2 (month d) ++ "-" ++ Str.pad2 (day d))%string.

(** [str(d)] for an aware datetime in UTC, as the log messages print it:
    [isoformat] with a blank, which writes the year with four digits. *)
Definition str (d : datetime) : string :=
  (Str.pad4 (year d) ++ "-" ++ Str.pad2 (month d) ++ "-" ++ Str.pad2 (day d)
   ++ " " ++ Str.pad2 (hour d) ++ ":" ++ Str.pad2 (minute d)
   ++ ":" ++ Str.pad2 (second d)
   ++ (if (microsecond d =? 0)%Z then EmptyString else "." ++ Str.pad6 (microsecond d))
   ++ "+00:00")%string.

End DT.

(** ** Effects

    What the module does besides computing: it opens the metadata feed, reads
    the clock, writes to the logger, and raises.  A computation takes the
    [world] and gives the events in the order they happened, and either the
    exception that ended it or its value. *)

Inductive level : Type := ERROR | WARNING.

Inductive event : Type :=
  | OpenFeed                                (* [Path(UBUNTU_DISTRO_INFO).open(..)] *)
  | Log (lvl : level) (msg : string).       (* [logger.error], [logger.warning] *)

Inductive exn : Type :=
  | ValueError (msg : string)               (* the [raise ValueError(..)] of the module *)
  | ParseError (data : string) (f : DT.format)
                                            (* the [ValueError] of [datetime.strptime] *)
  | StopIteration                           (* [next] on a feed without a first line *)
  | OSError                                 (* the feed cannot be opened *)
  | KeyError (key : string).                (* [build[..]] on a record without the key *)

(** The feed as the lines its iteration yields ([None]: it cannot be opened),
    and the instant [datetime.now(timezone.utc)] returns. *)
Record world : Type := mk_world {
  feed : option (list string);
  now : DT.datetime
}.

Definition result (A : Type) : Type := exn + A.

Definition M (A : Type) : Type := world -> list event * result A.

Definition ret {A} (a : A) : M A := fun _ => ([], inr a).

Definition raise {A} (e : exn) : M A := fun _ => ([], inl e).

Definition bind {A B} (m : M A) (f : A -> M B) : M B :=
  fun w =>
    match m w with
    | (t, inl e) => (t, inl e)
    | (t, inr a) => let '(t', r) := f a w in ((t ++ t')%list, r)
    end.

Declare Scope eol_scope.
Delimit Scope eol_scope with eol.
Notation "x <- m ;; k" := (bind m (fun x => k))
  (at level 100, m at next level, right associativity) : eol_scope.
Notation "m ;;; k" := (bind m (fun _ => k))
  (at level 100, right associativity) : eol_scope.
Local Open Scope eol_scope.

Definition log (lvl : level) (msg : string) : M unit :=
  fun _ => ([Log lvl msg], inr tt).

Definition open_feed : M (list string) :=
  fun w => ([OpenFeed], match feed w with Some ls => inr ls | None => inl OSError end).

Definition utcnow : M DT.datetime := fun w => ([], inr (now w)).

(** [datetime.strptime(s, f).replace(tzinfo=timezone.utc)] as a computation. *)
Definition strptime (s : string) (f : DT.format) : M DT.datetime :=
  match DT.strptime s f with
  | Some d => ret d
  | None => raise (ParseError s f)
  end.

(** [x or default] for an optional string. *)
Definition or_default (x : option string) (default : string) : string :=
  match x with
  | Some (String c r) => String c r
  | _ => default
  end.

(** [not x] for an optional string: it holds of [None] and of the empty text. *)
Definition falsy (x : option string) : bool :=
  match x with
  | Some (String _ _) => false
  | _ => true
  end.

(** [dict(pairs)]: a later pair replaces an earlier one with the same key. *)
Definition dict (pairs : list (string * string)) : gmap string string :=
  foldl (fun m kv => <[kv.1 := kv.2]> m) ∅ pairs.

(** ** The module *)

Definition UBUNTU_DISTRO_INFO : string := "/usr/share/distro-info/ubuntu.csv".

(** [VERSION_ID_REGEX.match(s)] for [^(\d{1,2}\.\d{1,2})$] *)
Definition VERSION_ID_REGEX_match (s : string) : bool :=
  match Re.digits_1_2 (Re.lit "." (Re.digits_1_2 Re.dollar)) s with
  | Some _ => true
  | None => false
  end.

Definition is_track_eol (track_value : gmap string string) (track_name : option string)
  : M bool :=
  match track_value !! "end-of-life" with
  | None =>
      log ERROR ("No EOL provided for " ++ or_default track_name "UNNAMED TRACK"
                 ++ "! Assuming EOL is now") ;;;
      ret true
  | Some eol_str =>
      eol_date <- strptime eol_str DT.EOL_TRACK_FMT ;;
      t <- utcnow ;;
      let is_eol := DT.lt eol_date t in
      (if is_eol
       then log WARNING ("Removing EOL track " ++ Str.DQ
                         ++ or_default track_name "UNKNOWN TRACK"
                         ++ Str.DQ ++ ", EOL: " ++ DT.str eol_date)
       else ret tt) ;;;
      ret is_eol
  end.

(** The column mapping of one data row: [dict(zip(headers, row.strip().split(',')))] *)
Definition row_dict (headers : list string) (row : string) : gmap string string :=
  dict (zip headers (Str.split "," (Str.strip row))).

Definition get_base_eol (base : string) (eol_target : string) : M DT.datetime :=
  distro_info <- open_feed ;;
  match distro_info with
  | [] => raise StopIteration
  | first :: rows =>
      let headers := Str.split "," (Str.strip first) in
      let valid_distro :=
        List.map (row_dict headers) (List.filter (Str.startswith base) rows) in
      match valid_distro with
      | [] => raise (ValueError ("Base image " ++ base ++ " not found in "
                                 ++ UBUNTU_DISTRO_INFO))
      | distro :: _ =>
          match distro !! eol_target with
          | None => raise (ValueError ("Base image " ++ base ++ " does not have "
                                       ++ eol_target))
          | Some v => strptime v DT.EOL_DISTRO_FMT
          end
      end
  end.

(** [build[key]] *)
Definition getitem (build : gmap string string) (key : string) : result string :=
  match build !! key with
  | Some v => inr v
  | None => inl (KeyError key)
  end.

(** One element of [table_records]. *)
Definition table_record (build : gmap string string) : result string :=
  match getitem build "track" with
  | inl e => inl e
  | inr track =>
  match getitem build "base" with
  | inl e => inl e
  | inr base =>
  match getitem build "track_eol" with
  | inl e => inl e
  | inr track_eol =>
  match getitem build "base_eol" with
  | inl e => inl e
  | inr base_eol =>
      inr ("| " ++ track ++ " | " ++ base ++ " | " ++ track_eol ++ " | " ++ base_eol ++ " |")
  end end end end.

(** The generator [table_records], run to its end by [join]. *)
Fixpoint table_records (builds : list (gmap string string)) : result (list string) :=
  match builds with
  | [] => inr []
  | build :: rest =>
      match table_record build with
      | inl e => inl e
      | inr r =>
          match table_records rest with
          | inl e => inl e
          | inr rs => inr (r :: rs)
          end
      end
  end.

Definition warning_title : string :=
  "Found tracks with EOL date exceeding base image's EOL date".

Definition warning_intro : string :=
  "Following tracks have an EOL date that exceeds the base image's EOL date:".
Definition warning_header : string :=
  "| Track | Base | Track EOL Date | Base EOL Date |".
Definition warning_rule : string :=
  "|-------|------|----------------|---------------|".
Definition warning_advice : string :=
  "Please check the EOL date of the base image and the track.".

Definition generate_base_eol_exceed_warning (tracks_eol_exceed_base_eol : list (gmap string string))
  : result (string * string) :=
  match table_records tracks_eol_exceed_base_eol with
  | inl e => inl e
  | inr records =>
      let title := warning_title in
      let body := (warning_intro ++ Str.NL
                   ++ warning_header ++ Str.NL
                   ++ warning_rule ++ Str.NL
                   ++ Str.join Str.NL records
                   ++ Str.NL ++ warning_advice ++ Str.NL)%string in
      inr (title, body)
  end.

(** The record of a violation, lines 141 to 146. *)
Definition violation (track base_version_id : string) (eol_date base_eol : DT.datetime)
  : gmap string string :=
  <["base_eol" := DT.strftime_distro base_eol]>
  (<["track_eol" := DT.strftime_distro eol_date]>
  (<["base" := "ubuntu:" ++ base_version_id]>
  (<["track" := track]> ∅))).

(** Lines 133 to 148: what [track_eol_exceeds_base_eol] does once
    [base_version_id] is set. *)
Definition compare_with_base (track track_eol base_version_id : string)
  : M (option (gmap string string)) :=
  base_eol <- get_base_eol base_version_id "eol" ;;
  eol_date <- strptime track_eol DT.EOL_TRACK_FMT ;;
  if DT.gt eol_date base_eol then
    log WARNING ("Track " ++ track ++ " has an EOL date " ++ DT.str eol_date
                 ++ " that exceeds the base image EOL date " ++ DT.str base_eol) ;;;
    ret (Some (violation track base_version_id eol_date base_eol))
  else ret None.

Definition track_eol_exceeds_base_eol (track track_eol : string) (base : option string)
  : M (option (gmap string string)) :=
  if falsy base then
    let base_version_id := Str.last_item (Str.split "-" track) in
    if negb (VERSION_ID_REGEX_match base_version_id) then
      log WARNING ("Track-base-EOL validation skipped for aliased track " ++ track) ;;;
      ret None
    else compare_with_base track track_eol base_version_id
  else
    let base_version_id := Str.last_item (Str.split ":" (default EmptyString base)) in
    compare_with_base track track_eol base_version_id.

(** What [strptime] leaves as the result of a computation. *)
Definition parsed (v : string) (f : DT.format) : result DT.datetime :=
  match DT.strptime v f with
  | Some d => inr d
  | None => inl (ParseError v f)
  end.

(** The two diagnostics of [track_eol_exceeds_base_eol]. *)
Definition skipped_msg (track : string) : string :=
  "Track-base-EOL validation skipped for aliased track " ++ track.

Definition exceeds_msg (track : string) (eol_date base_eol : DT.datetime) : string :=
  "Track " ++ track ++ " has an EOL date " ++ DT.str eol_date
  ++ " that exceeds the base image EOL date " ++ DT.str base_eol.

(** The value of the variable [base_version_id] when line 133 is reached, and
    [None] when the function returns at line 129 before that. *)
Definition base_version_id (track : string) (base : option string) : option string :=
  if falsy base then
    let v := Str.last_item (Str.split "-" track) in
    if negb (VERSION_ID_REGEX_match v) then None else Some v
  else Some (Str.last_item (Str.split ":" (default EmptyString base))).

(** [row] is the first of [rows], in their order, that begins with [base]. *)
Definition first_match (base : string) (rows : list string) (row : string) : Prop :=
  exists before after,
    rows = (before ++ row :: after)%list
    /\ Forall (fun r => Str.startswith base r = false) before
    /\ Str.startswith base row = true.

(** A record with the four fields of a violation. *)
Definition has_fields (build : gmap string string) (track base track_eol base_eol : string)
  : Prop :=
  build !! "track" = Some track /\ build !! "base" = Some base
  /\ build !! "track_eol" = Some track_eol /\ build !! "base_eol" = Some base_eol.

(** The row of the table for the four fields. *)
Definition row_text (track base track_eol base_eol : string) : string :=
  "| " ++ track ++ " | " ++ base ++ " | " ++ track_eol ++ " | " ++ base_eol ++ " |".

(** The four fields of a record, in the order of the columns. *)
Definition fields4 : Type := string * string * string * string.

Definition record_of (build : gmap string string) (f : fields4) : Prop :=
  let '(track, base, track_eol, base_eol) := f in
  has_fields build track base track_eol base_eol.

Definition row_of (f : fields4) : string :=
  let '(track, base, track_eol, base_eol) := f in
  row_text track base track_eol base_eol.

(** The lines of the body of the report, for its rows. *)
Definition body_lines (rows : list string) : list string :=
  ([warning_intro; warning_header; warning_rule]
   ++ match rows with [] => [EmptyString] | _ => rows end
   ++ [warning_advice; EmptyString])%list.

(** The text of an instant in the layout of [EOL_TRACK_FMT]. *)
Definition track_text (d : DT.datetime) : string :=
  Str.pad4 (DT.year d) ++ "-" ++ Str.pad2 (DT.month d) ++ "-" ++ Str.pad2 (DT.day d)
  ++ "T" ++ Str.pad2 (DT.hour d) ++ ":" ++ Str.pad2 (DT.minute d) ++ ":"
  ++ Str.pad2 (DT.second d) ++ "Z".


(** A sample of the feed, in the layout of [ubuntu.csv]. *)
Definition sample_header : string :=
  "version,codename,series,created,release,eol,eol-server,eol-esm" ++ Str.NL.
Definition sample_precise : string :=
  "12.04 LTS,Precise Pangolin,precise,2011-10-13,2012-04-26,2017-04-28,2017-04-28,2019-04-26"
  ++ Str.NL.
Definition sample_jammy : string :=
  "22.04 LTS,Jammy Jellyfish,jammy,2021-10-14,2022-04-21,2027-04-01,2027-04-01,2032-04-21"
  ++ Str.NL.
Definition sample_kinetic : string :=
  "22.10,Kinetic Kudu,kinetic,2022-04-21,2022-10-20,2023-07-20" ++ Str.NL.
Definition sample_mantic : string :=
  "23.10,Mantic Minotaur,mantic,2023-04-20,2023-10-12,2024-04-30" ++ Str.NL.

Definition sample_rows : list string :=
  [sample_precise; sample_jammy; sample_kinetic; sample_mantic].

Definition sample_feed : list string := sample_header :: sample_rows.



Definition sample_world : world :=
  mk_world (Some sample_feed) (DT.mk_datetime 2025 1 1 12 0 0 5).

(** One or two decimal digits. *)
Definition digits12 (s : string) : bool :=
  match s with
  | String a EmptyString => Str.is_digit a
  | String a (String b EmptyString) => Str.is_digit a && Str.is_digit b
  | _ => false
  end.

(** The two messages of the [ValueError] of [get_base_eol]. *)
Definition not_found_msg (base : string) : string :=
  "Base image " ++ base ++ " not found in " ++ UBUNTU_DISTRO_INFO.

Definition no_target_msg (base eol_target : string) : string :=
  "Base image " ++ base ++ " does not have " ++ eol_target.

(** A record with the four keys of a violation. *)
Definition complete (build : gmap string string) : Prop :=
  is_Some (build !! "track") /\ is_Some (build !! "base")
  /\ is_Some (build !! "track_eol") /\ is_Some (build !! "base_eol").

(** The first of the four keys, in the order the row reads them, that a
    record lacks. *)
Definition first_missing (build : gmap string string) : option string :=
  match build !! "track", build !! "base", build !! "track_eol", build !! "base_eol" with
  | None, _, _, _ => Some "track"
  | _, None, _, _ => Some "base"
  | _, _, None, _ => Some "track_eol"
  | _, _, _, None => Some "base_eol"
  | _, _, _, _ => None
  end.

(** * Properties *)

(** A case for each integer from [lo] to [hi] that the variable [n] can be;
    the context has to bound [n]. *)
Ltac cases_upto n lo hi :=
  let rec go k :=
    tryif (let t := eval cbv in (k <=? hi) in constr_eq t true)
    then (destruct (Z.eq_dec n k) as [-> | ?];
          [ | let k' := eval cbv in (k + 1) in go k' ])
    else (exfalso; lia)
  in go lo.

(** ** Strings *)

Section StrFacts.
Import Str.

Lemma ascii_eqb_true (a b : ascii) : Ascii.eqb a b = true <-> a = b.
Proof. apply Ascii.eqb_eq. Qed.

Lemma append_nil_l (s : string) : (EmptyString ++ s)%string = s.
Proof. reflexivity. Qed.

Lemma append_cons (c : ascii) (a b : string) :
  (String c a ++ b)%string = String c (a ++ b).
Proof. reflexivity. Qed.

Lemma append_assoc (a b c : string) : ((a ++ b) ++ c = a ++ (b ++ c))%string.
Proof.
  induction a as [|x a IH]; [reflexivity|].
  now rewrite !append_cons, IH.
Qed.

Lemma startswith_spec (p s : string) :
  startswith p s = true <-> exists r, s = (p ++ r)%string.
Proof.
  revert s. induction p as [|a p IH]; intros s; simpl.
  - split; [intros _; now exists s | reflexivity].
  - destruct s as [|b s].
    + split; [discriminate | intros [r Hr]; discriminate].
    + rewrite andb_true_iff, ascii_eqb_true, IH. split.
      * intros [-> [r ->]]. now exists r.
      * intros [r Hr]. rewrite append_cons in Hr.
        injection Hr as -> ->. split; [reflexivity | now exists r].
Qed.

Lemma split_not_nil (sep : ascii) (s : string) : split sep s <> [].
Proof.
  induction s as [|c s IH]; simpl; [discriminate|].
  destruct (Ascii.eqb c sep); [discriminate|].
  destruct (split sep s); [contradiction | discriminate].
Qed.

Lemma join_split (sep : ascii) (s : string) :
  join (String sep EmptyString) (split sep s) = s.
Proof.
  induction s as [|c s IH]; [reflexivity|].
  pose proof (split_not_nil sep s) as Hne. simpl.
  destruct (split sep s) as [|h t]; [contradiction|].
  destruct (Ascii.eqb c sep) eqn:E.
  - apply ascii_eqb_true in E. subst c.
    change (join (String sep EmptyString) (EmptyString :: h :: t))
      with (String sep (join (String sep EmptyString) (h :: t))).
    now rewrite IH.
  - destruct t as [|h' t'].
    + simpl in *. now rewrite IH.
    + change (join (String sep EmptyString) (String c h :: h' :: t'))
        with (String c (join (String sep EmptyString) (h :: h' :: t'))).
      now rewrite IH.
Qed.

Lemma split_items (sep : ascii) (s : string) :
  Forall (fun x => contains sep x = false) (split sep s).
Proof.
  induction s as [|c s IH]; simpl.
  - constructor; [reflexivity | constructor].
  - destruct (Ascii.eqb c sep) eqn:E.
    + constructor; [reflexivity | exact IH].
    + destruct (split sep s) as [|h t].
      * constructor; [simpl; now rewrite E | constructor].
      * inversion IH; subst. constructor; [simpl; now rewrite E | assumption].
Qed.

Lemma last_item_In (l : list string) : l <> [] -> In (last_item l) l.
Proof.
  unfold last_item. induction l as [|x l IH]; [congruence|]. intros _.
  destruct l as [|y l]; [now left|].
  right. apply IH. discriminate.
Qed.

Lemma join_last (sep : string) (l : list string) :
  l <> [] ->
  (match l with [x] => join sep l = x | _ => False end)
  \/ exists before, join sep l = (before ++ sep ++ last_item l)%string.
Proof.
  induction l as [|x l IH]; [congruence|]. intros _.
  destruct l as [|y l].
  - left. reflexivity.
  - right. destruct IH as [IH | [before IH]]; [discriminate | |].
    + destruct l; [|contradiction]. exists x. reflexivity.
    + exists (x ++ sep ++ before)%string.
      change (join sep (x :: y :: l)) with (x ++ sep ++ join sep (y :: l))%string.
      rewrite IH. unfold last_item. simpl List.last.
      now rewrite !append_assoc.
Qed.

(** The last item of a split is the text after the last separator, or the
    whole text when there is none. *)
Lemma last_split_spec (sep : ascii) (s : string) :
  let seg := last_item (split sep s) in
  contains sep seg = false
  /\ ((contains sep s = false /\ seg = s)
      \/ exists before, s = (before ++ String sep seg)%string).
Proof.
  intros seg. subst seg.
  pose proof (split_not_nil sep s) as Hne.
  pose proof (split_items sep s) as Hall.
  pose proof (join_split sep s) as Hj.
  split.
  - unfold last_item. rewrite Forall_forall in Hall. apply Hall.
    apply list_elem_of_In, last_item_In, Hne.
  - destruct (join_last (String sep EmptyString) (split sep s) Hne) as [H | [before H]].
    + destruct (split sep s) as [|x [|y l]]; try contradiction.
      left. simpl in Hj. subst s. inversion Hall as [|? ? Hx _].
      split; [exact Hx | reflexivity].
    + right. exists before. rewrite Hj in H. exact H.
Qed.

Lemma contains_app (c : ascii) (a b : string) :
  contains c (a ++ b)%string = contains c a || contains c b.
Proof.
  induction a as [|x a IH]; [reflexivity|].
  rewrite append_cons. simpl. rewrite IH. now rewrite orb_assoc.
Qed.

Lemma split_no_sep (sep : ascii) (s : string) :
  contains sep s = false -> split sep s = [s].
Proof.
  induction s as [|c s IH]; simpl; [reflexivity|].
  intros H. apply orb_false_iff in H as [H1 H2].
  rewrite H1, (IH H2). reflexivity.
Qed.

(** Splitting a text whose first line is [a]. *)
Lemma split_line (sep : ascii) (a b : string) :
  contains sep a = false ->
  split sep (a ++ String sep b)%string = a :: split sep b.
Proof.
  induction a as [|c a IH]; intros H.
  - rewrite append_nil_l. simpl. now rewrite Ascii.eqb_refl.
  - simpl in H. apply orb_false_iff in H as [H1 H2].
    rewrite append_cons. simpl. rewrite H1, (IH H2). reflexivity.
Qed.

End StrFacts.

(** ** Dates and times *)

Section DateFacts.
Import DT.

Lemma valid_date_spec (y m d : Z) :
  valid_date y m d = true
  <-> 1 <= y <= 9999 /\ 1 <= m <= 12 /\ 1 <= d <= days_in_month y m.
Proof. unfold valid_date. rewrite !andb_true_iff, !Z.leb_le. tauto. Qed.

Lemma valid_time_spec (h mi s us : Z) :
  valid_time h mi s us = true
  <-> 0 <= h <= 23 /\ 0 <= mi <= 59 /\ 0 <= s <= 59 /\ 0 <= us <= 999999.
Proof. unfold valid_time. rewrite !andb_true_iff, !Z.leb_le. tauto. Qed.

Ltac month_cases m := cases_upto m 1 12.

Lemma days_before_year_step (y : Z) :
  days_before_year (y + 1) = days_before_year y + (if is_leap y then 366 else 365).
Proof.
  unfold days_before_year, is_leap.
  replace (y + 1 - 1) with y by lia.
  destruct (Z.eqb_spec (y mod 4) 0), (Z.eqb_spec (y mod 100) 0),
    (Z.eqb_spec (y mod 400) 0); simpl;
    Z.div_mod_to_equations; lia.
Qed.

Lemma days_before_year_mono (y1 y2 : Z) :
  y1 <= y2 -> days_before_year y1 <= days_before_year y2.
Proof. unfold days_before_year. intros H. Z.div_mod_to_equations. lia. Qed.

(** The day of the year lies within the year. *)
Lemma day_of_year_bounds (y m d : Z) :
  valid_date y m d = true ->
  1 <= days_before_month y m + d <= (if is_leap y then 366 else 365).
Proof.
  rewrite valid_date_spec. intros (_ & Hm & Hd).
  month_cases m; unfold days_before_month, days_in_month in *; simpl in *;
    destruct (is_leap y); lia.
Qed.

(** Within a year a later month is a later day of the year. *)
Lemma day_of_year_mono (y m1 d1 m2 d2 : Z) :
  valid_date y m1 d1 = true -> valid_date y m2 d2 = true -> m1 < m2 ->
  days_before_month y m1 + d1 < days_before_month y m2 + d2.
Proof.
  rewrite !valid_date_spec. intros (_ & Hm1 & Hd1) (_ & Hm2 & Hd2) Hlt.
  month_cases m1; month_cases m2; try lia;
    unfold days_before_month, days_in_month in *; simpl in *;
    destruct (is_leap y); lia.
Qed.

Lemma ordinal_year_mono (y1 m1 d1 y2 m2 d2 : Z) :
  valid_date y1 m1 d1 = true -> valid_date y2 m2 d2 = true -> y1 < y2 ->
  days_before_year y1 + days_before_month y1 m1 + d1
  < days_before_year y2 + days_before_month y2 m2 + d2.
Proof.
  intros H1 H2 Hlt.
  pose proof (day_of_year_bounds _ _ _ H1) as B1.
  pose proof (day_of_year_bounds _ _ _ H2) as B2.
  pose proof (days_before_year_step y1) as S1.
  pose proof (days_before_year_mono (y1 + 1) y2 ltac:(lia)) as M.
  destruct (is_leap y1); lia.
Qed.

(** The order of Python on datetimes in UTC is the order of the instants. *)
Lemma cmp_tuple_micros (a b : datetime) :
  valid a = true -> valid b = true ->
  cmp_tuple (fields a) (fields b) = (to_micros a ?= to_micros b).
Proof.
  destruct a as [y1 m1 d1 h1 n1 s1 u1], b as [y2 m2 d2 h2 n2 s2 u2].
  unfold valid, to_micros, toordinal, fields; simpl.
  rewrite !andb_true_iff. intros [Hd1 Ht1] [Hd2 Ht2].
  pose proof (ordinal_year_mono _ _ _ _ _ _ Hd1 Hd2) as Y12.
  pose proof (ordinal_year_mono _ _ _ _ _ _ Hd2 Hd1) as Y21.
  apply valid_time_spec in Ht1, Ht2.
  destruct (Z.compare_spec y1 y2) as [-> | Hy | Hy];
    [ | symmetry; apply Z.compare_lt_iff; specialize (Y12 Hy); lia
      | symmetry; apply Z.compare_gt_iff; specialize (Y21 Hy); lia ].
  pose proof (day_of_year_mono _ _ _ _ _ Hd1 Hd2) as M12.
  pose proof (day_of_year_mono _ _ _ _ _ Hd2 Hd1) as M21.
  destruct (Z.compare_spec m1 m2) as [-> | Hm | Hm];
    [ | symmetry; apply Z.compare_lt_iff; specialize (M12 Hm); lia
      | symmetry; apply Z.compare_gt_iff; specialize (M21 Hm); lia ].
  clear Y12 Y21 M12 M21.
  repeat match goal with
    | |- context [ ?x ?= ?y ] =>
        is_var x; is_var y;
        destruct (Z.compare_spec x y);
        [ subst
        | symmetry; apply Z.compare_lt_iff; lia
        | symmetry; apply Z.compare_gt_iff; lia ]
    end.
  symmetry. apply Z.compare_eq_iff. reflexivity.
Qed.

Lemma gt_micros (a b : datetime) :
  valid a = true -> valid b = true ->
  gt a b = (to_micros b <? to_micros a).
Proof.
  intros Ha Hb. unfold gt. rewrite (cmp_tuple_micros a b Ha Hb).
  rewrite Z.ltb_compare, (Z.compare_antisym (to_micros a)).
  destruct (to_micros a ?= to_micros b); reflexivity.
Qed.

Lemma lt_micros (a b : datetime) :
  valid a = true -> valid b = true ->
  lt a b = (to_micros a <? to_micros b).
Proof.
  intros Ha Hb. unfold lt. rewrite (cmp_tuple_micros a b Ha Hb).
  rewrite Z.ltb_compare. destruct (to_micros a ?= to_micros b); reflexivity.
Qed.

End DateFacts.

(** ** Parsing and printing dates *)

Section ParseFacts.
Import DT Re.

Ltac digit_cases n := cases_upto n 0 9.

Lemma is_digit_chr (n : Z) : 0 <= n <= 9 -> Str.is_digit (Str.digit_chr n) = true.
Proof. intros H. digit_cases n; reflexivity. Qed.

Lemma digit_val_chr (n : Z) : 0 <= n <= 9 -> Str.digit_val (Str.digit_chr n) = n.
Proof. intros H. digit_cases n; reflexivity. Qed.

(** Reading back two printed digits. *)
Lemma cls2_pad2 {A} (k : Z -> cont A) (n : Z) (r : string) :
  0 <= n <= 99 ->
  cls2 Str.is_digit Str.is_digit k (Str.pad2 n ++ r)%string = k n r.
Proof.
  intros H. unfold Str.pad2. rewrite !append_cons, append_nil_l. unfold cls2.
  assert (H1 : 0 <= n / 10 mod 10 <= 9) by (Z.div_mod_to_equations; lia).
  assert (H2 : 0 <= n mod 10 <= 9) by (Z.div_mod_to_equations; lia).
  rewrite !is_digit_chr, !digit_val_chr by assumption. simpl.
  f_equal. Z.div_mod_to_equations. lia.
Qed.

Lemma dir_Y_pad4 {A} (k : Z -> cont A) (y : Z) (r : string) :
  0 <= y <= 9999 -> dir_Y k (Str.pad4 y ++ r)%string = k y r.
Proof.
  intros H. unfold dir_Y, Str.pad4. rewrite append_assoc.
  rewrite cls2_pad2 by (Z.div_mod_to_equations; lia).
  rewrite cls2_pad2 by (Z.div_mod_to_equations; lia).
  f_equal. Z.div_mod_to_equations. lia.
Qed.

Lemma days_in_month_le (y m : Z) : days_in_month y m <= 31.
Proof.
  unfold days_in_month.
  destruct (m =? 2); [destruct (is_leap y); lia|].
  destruct ((m =? 4) || (m =? 6) || (m =? 9) || (m =? 11)); lia.
Qed.

(** Reading back a printed month and day. *)
Lemma month_day_readback (y m d : Z) :
  1 <= m <= 12 -> 1 <= d <= 31 ->
  lit "-" (dir_m (fun m' => lit "-" (dir_d (fun d' rest =>
    Some ((y, m', d', 0, 0, 0), rest)))))
    ("-" ++ Str.pad2 m ++ "-" ++ Str.pad2 d)%string
  = Some ((y, m, d, 0, 0, 0), EmptyString).
Proof.
  intros Hm Hd.
  cases_upto m 1 12; cases_upto d 1 31; reflexivity.
Qed.

(** The digits of every year of the calendar: four of them from the year
    1000 on, where they are the padded ones, and at most three before. *)
Lemma decimal_table :
  forallb (fun n : nat =>
             let y := Z.of_nat n in
             if y <? 1000 then (String.length (Str.decimal y) <=? 3)%nat
             else String.eqb (Str.decimal y) (Str.pad4 y))
    (List.seq 1 (Z.to_nat 9999)) = true.
Proof. vm_compute. reflexivity. Qed.

Lemma decimal_year_cases (y : Z) :
  1 <= y <= 9999 ->
  if y <? 1000 then (String.length (Str.decimal y) <= 3)%nat
  else Str.decimal y = Str.pad4 y.
Proof.
  intros Hy. pose proof decimal_table as T.
  rewrite forallb_forall in T. specialize (T (Z.to_nat y)).
  rewrite Z2Nat.id in T by lia. cbv zeta in T.
  assert (Hin : In (Z.to_nat y) (List.seq 1 (Z.to_nat 9999))) by (apply in_seq; lia).
  specialize (T Hin). destruct (y <? 1000).
  - now apply Nat.leb_le.
  - now apply String.eqb_eq.
Qed.

Lemma decimal_year (y : Z) : 1000 <= y <= 9999 -> Str.decimal y = Str.pad4 y.
Proof.
  intros Hy. pose proof (decimal_year_cases y ltac:(lia)) as H.
  destruct (Z.ltb_spec y 1000); [lia | exact H].
Qed.




(** A printed date reads back as that date, at midnight, from the year 1000 on. *)
Theorem strptime_strftime (d : datetime) :
  valid d = true -> 1000 <= year d ->
  DT.strptime (strftime_distro d) EOL_DISTRO_FMT = Some (midnight d).
Proof.
  destruct d as [y m d h mi s us].
  unfold valid; cbn [year month day hour minute second microsecond].
  rewrite andb_true_iff. intros [Hd _] Hy1000.
  pose proof Hd as Hd'. apply valid_date_spec in Hd' as (Hy & Hm & Hdd).
  pose proof (days_in_month_le y m) as Hle.
  unfold DT.strptime, strftime_distro, match_distro_fmt, midnight.
  cbn [year month day].
  rewrite decimal_year by lia.
  rewrite dir_Y_pad4 by lia.
  rewrite month_day_readback by lia.
  unfold build. rewrite Hd. reflexivity.
Qed.





(** *** Every timestamp in the layout of the track format parses *)

Lemma lit_same {A} (c : ascii) (k : cont A) (r : string) :
  lit c k (String c r) = k r.
Proof. unfold lit. now rewrite Ascii.eqb_refl. Qed.

Ltac first_success Hk :=
  unfold Str.pad2; rewrite !append_cons, append_nil_l;
  cbv in Hk |- *; rewrite Hk; reflexivity.

Lemma dir_m_pad2 {A} (k : Z -> cont A) (n : Z) (r : string) (x : A) :
  1 <= n <= 12 -> k n r = Some x -> dir_m k (Str.pad2 n ++ r)%string = Some x.
Proof. intros Hn Hk. cases_upto n 1 12; first_success Hk. Qed.

Lemma dir_d_pad2 {A} (k : Z -> cont A) (n : Z) (r : string) (x : A) :
  1 <= n <= 31 -> k n r = Some x -> dir_d k (Str.pad2 n ++ r)%string = Some x.
Proof. intros Hn Hk. cases_upto n 1 31; first_success Hk. Qed.

Lemma dir_H_pad2 {A} (k : Z -> cont A) (n : Z) (r : string) (x : A) :
  0 <= n <= 23 -> k n r = Some x -> dir_H k (Str.pad2 n ++ r)%string = Some x.
Proof. intros Hn Hk. cases_upto n 0 23; first_success Hk. Qed.

Lemma dir_M_pad2 {A} (k : Z -> cont A) (n : Z) (r : string) (x : A) :
  0 <= n <= 59 -> k n r = Some x -> dir_M k (Str.pad2 n ++ r)%string = Some x.
Proof. intros Hn Hk. cases_upto n 0 59; first_success Hk. Qed.

Lemma dir_S_pad2 {A} (k : Z -> cont A) (n : Z) (r : string) (x : A) :
  0 <= n <= 59 -> k n r = Some x -> dir_S k (Str.pad2 n ++ r)%string = Some x.
Proof. intros Hn Hk. cases_upto n 0 59; first_success Hk. Qed.

Theorem strptime_track_text (d : datetime) :
  valid d = true -> microsecond d = 0 ->
  DT.strptime (track_text d) EOL_TRACK_FMT = Some d.
Proof.
  destruct d as [y m d h mi s us].
  unfold valid; cbn [year month day hour minute second microsecond].
  rewrite andb_true_iff. intros [Hd Ht] ->.
  pose proof Hd as Hd'. apply valid_date_spec in Hd' as (Hy & Hm & Hdd).
  pose proof Ht as Ht'. apply valid_time_spec in Ht' as (Hh & Hmi & Hs & _).
  pose proof (days_in_month_le y m) as Hle.
  unfold DT.strptime, track_text, match_track_fmt.
  cbn [year month day hour minute second].
  rewrite dir_Y_pad4 by lia.
  rewrite append_cons, append_nil_l, lit_same.
  erewrite dir_m_pad2; [| lia |].
  2:{ rewrite append_cons, append_nil_l, lit_same.
      apply dir_d_pad2; [lia|].
      rewrite append_cons, append_nil_l. unfold lit_ci. cbn [Ascii.eqb orb].
      change ((("T" =? "T")%char || ("T" =? "t")%char)) with true. cbv iota.
      apply dir_H_pad2; [lia|].
      rewrite append_cons, append_nil_l, lit_same.
      apply dir_M_pad2; [lia|].
      rewrite append_cons, append_nil_l, lit_same.
      apply dir_S_pad2; [lia|].
      reflexivity. }
  unfold build. now rewrite Hd, Ht.
Qed.

(** *** What a successful parse tells *)

Lemma build_Some (g : option groups) (d : datetime) :
  build g = Some d ->
  exists y m dd h mi s,
    g = Some ((y, m, dd, h, mi, s), EmptyString)
    /\ d = mk_datetime y m dd h mi s 0 /\ valid d = true.
Proof.
  unfold build. destruct g as [[[[[[[y m] dd] h] mi] s] [|c r]]|]; try discriminate.
  destruct (valid_date y m dd && valid_time h mi s 0) eqn:E; [|discriminate].
  intros [= <-]. exists y, m, dd, h, mi, s.
  split; [reflexivity | split; [reflexivity | exact E]].
Qed.

(** Whatever [strptime] returns is a value the constructor accepts, with no
    microseconds. *)
Lemma strptime_valid (s : string) (f : format) (d : datetime) :
  DT.strptime s f = Some d -> valid d = true /\ microsecond d = 0.
Proof.
  unfold DT.strptime. destruct f; intros H;
    apply build_Some in H as (y & m & dd & h & mi & sec & _ & -> & Hv);
    (split; [exact Hv | reflexivity]).
Qed.

Section Inversion.
Context {A : Type}.

Lemma alt_inv (p q : cont A) (s : string) (r : A) :
  alt p q s = Some r -> p s = Some r \/ q s = Some r.
Proof.
  unfold alt. destruct (p s) as [x|]; intros H; [left | right]; exact H.
Qed.

Lemma lit_inv (c : ascii) (k : cont A) (s : string) (r : A) :
  lit c k s = Some r -> exists s', s = String c s' /\ k s' = Some r.
Proof.
  unfold lit. destruct s as [|a s']; [discriminate|].
  destruct (Ascii.eqb a c) eqn:E; [|discriminate].
  apply Ascii.eqb_eq in E. subst a. intros H. now exists s'.
Qed.

Lemma cls2_inv (p1 p2 : ascii -> bool) (k : Z -> cont A) (s : string) (r : A) :
  cls2 p1 p2 k s = Some r -> exists n s', k n s' = Some r.
Proof.
  unfold cls2. destruct s as [|a [|b s']]; try discriminate.
  destruct (p1 a && p2 b); [|discriminate]. intros H. eexists _, _. exact H.
Qed.

Lemma cls1_inv (p : ascii -> bool) (k : Z -> cont A) (s : string) (r : A) :
  cls1 p k s = Some r -> exists n s', k n s' = Some r.
Proof.
  unfold cls1. destruct s as [|a s']; try discriminate.
  destruct (p a); [|discriminate]. intros H. eexists _, _. exact H.
Qed.

Lemma blank1_inv (p : ascii -> bool) (k : Z -> cont A) (s : string) (r : A) :
  blank1 p k s = Some r -> exists n s', k n s' = Some r.
Proof.
  unfold blank1. destruct s as [|a [|b s']]; try discriminate.
  destruct (_ && _); [|discriminate]. intros H. eexists _, _. exact H.
Qed.

Lemma dir_Y_inv (k : Z -> cont A) (s : string) (r : A) :
  dir_Y k s = Some r -> exists n s', k n s' = Some r.
Proof.
  unfold dir_Y. intros H.
  apply cls2_inv in H as (hi & s1 & H). apply cls2_inv in H as (lo & s2 & H).
  eexists _, _. exact H.
Qed.

Lemma dir_m_inv (k : Z -> cont A) (s : string) (r : A) :
  dir_m k s = Some r -> exists n s', k n s' = Some r.
Proof.
  unfold dir_m. intros H.
  repeat (apply alt_inv in H as [H | H]);
    first [apply cls2_inv in H | apply cls1_inv in H]; exact H.
Qed.

Lemma dir_d_inv (k : Z -> cont A) (s : string) (r : A) :
  dir_d k s = Some r -> exists n s', k n s' = Some r.
Proof.
  unfold dir_d. intros H.
  repeat (apply alt_inv in H as [H | H]);
    first [apply cls2_inv in H | apply cls1_inv in H | apply blank1_inv in H];
    exact H.
Qed.
End Inversion.

(** A date of the feed is read as the beginning of its day. *)
Lemma strptime_distro_midnight (s : string) (d : datetime) :
  DT.strptime s EOL_DISTRO_FMT = Some d -> d = midnight d.
Proof.
  simpl. intros H.
  apply build_Some in H as (y & m & dd & h & mi & sec & Hg & -> & _).
  unfold match_distro_fmt in Hg.
  apply dir_Y_inv in Hg as (y' & s1 & Hg).
  apply lit_inv in Hg as (s2 & _ & Hg).
  apply dir_m_inv in Hg as (m' & s3 & Hg).
  apply lit_inv in Hg as (s4 & _ & Hg).
  apply dir_d_inv in Hg as (d' & s5 & Hg).
  injection Hg as Ey Em Ed Eh Emi Es _. subst. reflexivity.
Qed.

End ParseFacts.

(** ** Dictionaries built from pairs *)

Section DictFacts.

Lemma dict_snoc (l : list (string * string)) (k v : string) :
  dict (l ++ [(k, v)]) = <[k := v]> (dict l).
Proof. unfold dict. now rewrite foldl_snoc. Qed.

(** [key not in dict(pairs)] *)
Lemma dict_lookup_None (l : list (string * string)) (k : string) :
  dict l !! k = None <-> k ∉ l.*1.
Proof.
  induction l as [|[k' v'] l IH] using rev_ind.
  - split; [intros _; apply not_elem_of_nil | reflexivity].
  - rewrite dict_snoc, fmap_app, not_elem_of_app. simpl.
    destruct (decide (k' = k)) as [-> | Hne].
    + rewrite lookup_insert_eq. split; [discriminate|].
      intros [_ H]. exfalso. apply H. apply list_elem_of_here.
    + rewrite lookup_insert_ne by exact Hne. rewrite IH.
      split; [intros H; split; [exact H|] | intros [H _]; exact H].
      intros Hin. apply list_elem_of_singleton in Hin. congruence.
Qed.

(** With keys that do not repeat, a pair of the list is an entry of the dict. *)
Lemma dict_lookup_pair (l : list (string * string)) (k v : string) :
  NoDup l.*1 -> (k, v) ∈ l -> dict l !! k = Some v.
Proof.
  induction l as [|[k' v'] l IH] using rev_ind; intros Hnd Hin.
  - now apply elem_of_nil in Hin.
  - rewrite dict_snoc. rewrite fmap_app in Hnd. simpl in Hnd.
    apply NoDup_app in Hnd as (Hnd & Hdis & _).
    apply elem_of_app in Hin as [Hin | Hin].
    + assert (k ∈ l.*1) as Hk by (apply list_elem_of_fmap; now exists (k, v)).
      rewrite lookup_insert_ne.
      * now apply IH.
      * intros ->. apply (Hdis k Hk). apply list_elem_of_here.
    + apply list_elem_of_singleton in Hin. injection Hin as -> ->.
      apply lookup_insert_eq.
Qed.

Lemma zip_keys_NoDup (headers fields : list string) :
  NoDup headers -> NoDup (zip headers fields).*1.
Proof.
  revert fields. induction headers as [|h hs IH]; intros [|f fs] Hnd; simpl;
    try apply NoDup_nil_2.
  apply NoDup_cons in Hnd as [Hh Hnd].
  apply NoDup_cons. split; [|now apply IH].
  intros Hin. apply list_elem_of_fmap in Hin as ([a b] & -> & Hin).
  apply elem_of_zip_l in Hin. contradiction.
Qed.

Lemma zip_lookup_elem (headers fields : list string) (i : nat) (h f : string) :
  headers !! i = Some h -> fields !! i = Some f -> (h, f) ∈ zip headers fields.
Proof.
  revert fields i. induction headers as [|h0 hs IH]; intros [|f0 fs] [|i] Hh Hf;
    try discriminate; simpl in *.
  - injection Hh as ->. injection Hf as ->. apply list_elem_of_here.
  - apply list_elem_of_further. now apply (IH fs i).
Qed.

(** The entry of a column is the field of the row at the position of the
    column in the header, when the names of the columns do not repeat. *)
Lemma row_dict_column (headers : list string) (row target v : string) (i : nat) :
  NoDup headers ->
  headers !! i = Some target ->
  Str.split "," (Str.strip row) !! i = Some v ->
  row_dict headers row !! target = Some v.
Proof.
  intros Hnd Hh Hf. unfold row_dict. apply dict_lookup_pair.
  - now apply zip_keys_NoDup.
  - now apply (zip_lookup_elem _ _ i).
Qed.

(** A column is missing from the mapping of a row when the header does not
    name it, or the row is too short to reach it. *)
Lemma row_dict_missing (headers : list string) (row target : string) :
  row_dict headers row !! target = None
  <-> target ∉ take (length (Str.split "," (Str.strip row))) headers.
Proof.
  unfold row_dict. rewrite dict_lookup_None.
  generalize (Str.split "," (Str.strip row)) as fields.
  induction headers as [|h hs IH]; intros [|f fs]; simpl; try tauto.
  rewrite !not_elem_of_cons. now rewrite IH.
Qed.

End DictFacts.

(** ** The base EOL resolver *)

Section Resolver.

Lemma filter_first (p : string -> bool) (rows : list string) :
  match List.filter p rows with
  | [] => Forall (fun r => p r = false) rows
  | row :: _ =>
      exists before after,
        rows = (before ++ row :: after)%list
        /\ Forall (fun r => p r = false) before /\ p row = true
  end.
Proof.
  induction rows as [|r rows IH]; simpl; [constructor|].
  destruct (p r) eqn:E.
  - exists [], rows. repeat split; [constructor | exact E].
  - destruct (List.filter p rows) as [|row t].
    + constructor; assumption.
    + destruct IH as (before & after & -> & Hb & Hr).
      exists (r :: before), after. repeat split; [constructor; assumption | exact Hr].
Qed.

Lemma first_match_filter (base : string) (rows : list string) (row : string) :
  first_match base rows row <->
  exists t, List.filter (Str.startswith base) rows = row :: t.
Proof.
  split.
  - intros (before & after & -> & Hb & Hr).
    induction Hb as [|r before Hr' _ IH]; simpl.
    + rewrite Hr. eauto.
    + rewrite Hr'. exact IH.
  - intros [t Ht]. pose proof (filter_first (Str.startswith base) rows) as H.
    rewrite Ht in H. exact H.
Qed.

Lemma no_match_filter (base : string) (rows : list string) :
  Forall (fun r => Str.startswith base r = false) rows <->
  List.filter (Str.startswith base) rows = [].
Proof.
  split.
  - induction 1 as [|r rows Hr _ IH]; simpl; [reflexivity | now rewrite Hr].
  - intros Hf. pose proof (filter_first (Str.startswith base) rows) as H.
    now rewrite Hf in H.
Qed.

Lemma strptime_run (v : string) (f : DT.format) (w : world) :
  strptime v f w = ([], parsed v f).
Proof. unfold strptime, parsed. destruct (DT.strptime v f); reflexivity. Qed.

(** [get_base_eol] on a feed that has its header line. *)
Lemma get_base_eol_run (base target hdr : string) (rows : list string) (nw : DT.datetime) :
  get_base_eol base target (mk_world (Some (hdr :: rows)) nw)
  = ([OpenFeed],
     match List.filter (Str.startswith base) rows with
     | [] => inl (ValueError ("Base image " ++ base ++ " not found in "
                              ++ UBUNTU_DISTRO_INFO))
     | row :: _ =>
         match row_dict (Str.split "," (Str.strip hdr)) row !! target with
         | None => inl (ValueError ("Base image " ++ base ++ " does not have "
                                    ++ target))
         | Some v => parsed v DT.EOL_DISTRO_FMT
         end
     end).
Proof.
  unfold get_base_eol, bind, open_feed. cbn [feed].
  destruct (List.filter (Str.startswith base) rows) as [|row t]; [reflexivity|].
  cbn [List.map].
  destruct (row_dict (Str.split "," (Str.strip hdr)) row !! target) as [v|];
    [|reflexivity].
  now rewrite strptime_run.
Qed.

(** Without a first line [next] raises; without a file [open] does. *)
Lemma get_base_eol_no_header (base target : string) (nw : DT.datetime) :
  get_base_eol base target (mk_world (Some []) nw) = ([OpenFeed], inl StopIteration)
  /\ get_base_eol base target (mk_world None nw) = ([OpenFeed], inl OSError).
Proof. split; reflexivity. Qed.

(** A lookup that returns has found a first matching row with a date. *)
Lemma get_base_eol_ok_inv (base target : string) (w : world) (d : DT.datetime) :
  snd (get_base_eol base target w) = inr d ->
  exists hdr rows row v,
    feed w = Some (hdr :: rows)
    /\ first_match base rows row
    /\ row_dict (Str.split "," (Str.strip hdr)) row !! target = Some v
    /\ DT.strptime v DT.EOL_DISTRO_FMT = Some d.
Proof.
  destruct w as [[[|hdr rows]|] nw]; try discriminate.
  rewrite get_base_eol_run. cbn [snd].
  destruct (List.filter (Str.startswith base) rows) as [|row t] eqn:Hf; [discriminate|].
  destruct (row_dict _ row !! target) as [v|] eqn:Hv; [|discriminate].
  unfold parsed. destruct (DT.strptime v DT.EOL_DISTRO_FMT) as [d'|] eqn:Hp;
    [|discriminate].
  intros [= <-]. exists hdr, rows, row, v.
  repeat split; try assumption. apply first_match_filter. eauto.
Qed.

End Resolver.

(** ** The cross-validator, step by step *)

Section CrossValidator.

Lemma get_base_eol_trace (base target : string) (w : world) :
  fst (get_base_eol base target w) = [OpenFeed].
Proof.
  destruct w as [[[|hdr rows]|] nw]; try reflexivity.
  now rewrite get_base_eol_run.
Qed.

Lemma compare_with_base_run (track track_eol v : string) (w : world) :
  compare_with_base track track_eol v w
  = match snd (get_base_eol v "eol" w) with
    | inl e => ([OpenFeed], inl e)
    | inr base_eol =>
        match DT.strptime track_eol DT.EOL_TRACK_FMT with
        | None => ([OpenFeed], inl (ParseError track_eol DT.EOL_TRACK_FMT))
        | Some eol_date =>
            if DT.gt eol_date base_eol
            then ([OpenFeed; Log WARNING (exceeds_msg track eol_date base_eol)],
                  inr (Some (violation track v eol_date base_eol)))
            else ([OpenFeed], inr None)
        end
    end.
Proof.
  unfold compare_with_base, bind.
  pose proof (get_base_eol_trace v "eol" w) as Ht.
  destruct (get_base_eol v "eol" w) as [t [e | bd]]; cbn [fst snd] in *; subst t;
    [reflexivity|].
  rewrite strptime_run. unfold parsed.
  destruct (DT.strptime track_eol DT.EOL_TRACK_FMT) as [td|]; [|reflexivity].
  destruct (DT.gt td bd); reflexivity.
Qed.

Lemma track_eol_exceeds_base_eol_run (track track_eol : string) (base : option string)
  (w : world) :
  track_eol_exceeds_base_eol track track_eol base w
  = match base_version_id track base with
    | Some v => compare_with_base track track_eol v w
    | None => ([Log WARNING (skipped_msg track)], inr None)
    end.
Proof.
  unfold track_eol_exceeds_base_eol, base_version_id.
  destruct (falsy base); [|reflexivity].
  destruct (VERSION_ID_REGEX_match _); reflexivity.
Qed.

Lemma is_track_eol_run (track_value : gmap string string) (track_name : option string)
  (w : world) :
  snd (is_track_eol track_value track_name w)
  = match track_value !! "end-of-life" with
    | None => inr true
    | Some eol_str =>
        match DT.strptime eol_str DT.EOL_TRACK_FMT with
        | None => inl (ParseError eol_str DT.EOL_TRACK_FMT)
        | Some eol_date => inr (DT.lt eol_date (now w))
        end
    end.
Proof.
  unfold is_track_eol.
  destruct (track_value !! "end-of-life") as [eol_str|]; [|reflexivity].
  unfold bind. rewrite strptime_run. unfold parsed.
  destruct (DT.strptime eol_str DT.EOL_TRACK_FMT) as [d|]; [|reflexivity].
  cbn. destruct (DT.lt d (now w)); reflexivity.
Qed.

Lemma violation_fields (track v : string) (td bd : DT.datetime) :
  has_fields (violation track v td bd) track ("ubuntu:" ++ v)
    (DT.strftime_distro td) (DT.strftime_distro bd).
Proof.
  unfold has_fields, violation. repeat split; simplify_map_eq; reflexivity.
Qed.

(** The version pattern accepts no empty text. *)
Lemma VERSION_ID_REGEX_match_not_empty (s : string) :
  VERSION_ID_REGEX_match s = true -> s <> EmptyString.
Proof. intros H ->. discriminate. Qed.

End CrossValidator.

(** ** The embedding on concrete inputs *)

Section Examples.

Example strptime_track_fmt :
  DT.strptime "2024-04-30T00:00:01Z" DT.EOL_TRACK_FMT
  = Some (DT.mk_datetime 2024 4 30 0 0 1 0).
Proof. reflexivity. Qed.

(** Single digits and lower case letters are within the pattern. *)
Example strptime_lenient :
  DT.strptime "2024-4-3t7:5:9z" DT.EOL_TRACK_FMT
  = Some (DT.mk_datetime 2024 4 3 7 5 9 0).
Proof. reflexivity. Qed.

Example strptime_refused :
  DT.strptime "2023-02-29T00:00:00Z" DT.EOL_TRACK_FMT = None
  /\ DT.strptime "2024-02-29T00:00:60Z" DT.EOL_TRACK_FMT = None
  /\ DT.strptime "2024-02-29T00:00:00Z " DT.EOL_TRACK_FMT = None
  /\ DT.strptime "2024-13-01T00:00:00Z" DT.EOL_TRACK_FMT = None
  /\ DT.strptime "0000-01-01T00:00:00Z" DT.EOL_TRACK_FMT = None
  /\ DT.strptime "2027-04-011" DT.EOL_DISTRO_FMT = None
  /\ DT.strptime EmptyString DT.EOL_DISTRO_FMT = None.
Proof. repeat split; reflexivity. Qed.

Example strptime_distro_fmt :
  DT.strptime "2027-04-01" DT.EOL_DISTRO_FMT = Some (DT.mk_datetime 2027 4 1 0 0 0 0).
Proof. reflexivity. Qed.

Example str_datetime :
  DT.str (DT.mk_datetime 2024 4 30 0 0 1 0) = "2024-04-30 00:00:01+00:00".
Proof. reflexivity. Qed.

Example split_track :
  Str.split "-" "1.0-22.04" = ["1.0"; "22.04"]
  /\ Str.split "-" "latest" = ["latest"]
  /\ Str.split ":" "ubuntu:" = ["ubuntu"; EmptyString]
  /\ Str.split "," EmptyString = [EmptyString].
Proof. repeat split; reflexivity. Qed.

Example strip_row : Str.strip sample_kinetic
                    = "22.10,Kinetic Kudu,kinetic,2022-04-21,2022-10-20,2023-07-20".
Proof. reflexivity. Qed.

(** [$] lets one final newline through. *)
Example version_pattern :
  VERSION_ID_REGEX_match "22.04" = true
  /\ VERSION_ID_REGEX_match "2.4" = true
  /\ VERSION_ID_REGEX_match ("22.04" ++ Str.NL) = true
  /\ VERSION_ID_REGEX_match "222.04" = false
  /\ VERSION_ID_REGEX_match "22.044" = false
  /\ VERSION_ID_REGEX_match "22" = false
  /\ VERSION_ID_REGEX_match "latest" = false
  /\ VERSION_ID_REGEX_match EmptyString = false.
Proof. repeat split; reflexivity. Qed.

(** The clock of [sample_world] stands five microseconds after noon: a track
    whose EOL is that noon is EOL, and one whose EOL is the next second is
    not. *)
Example is_track_eol_same_second :
  is_track_eol {[ "end-of-life" := "2025-01-01T12:00:00Z" ]} (Some "1.0-22.04") sample_world
  = ([Log WARNING ("Removing EOL track " ++ Str.DQ ++ "1.0-22.04" ++ Str.DQ
                   ++ ", EOL: 2025-01-01 12:00:00+00:00")],
     inr true)
  /\ is_track_eol {[ "end-of-life" := "2025-01-01T12:00:01Z" ]} None sample_world
     = ([], inr false).
Proof. split; vm_compute; reflexivity. Qed.

Example is_track_eol_missing :
  is_track_eol ∅ None sample_world
  = ([Log ERROR "No EOL provided for UNNAMED TRACK! Assuming EOL is now"], inr true).
Proof. reflexivity. Qed.

Example is_track_eol_malformed :
  snd (is_track_eol {[ "end-of-life" := "2025-01-01" ]} None sample_world)
  = inl (ParseError "2025-01-01" DT.EOL_TRACK_FMT).
Proof. vm_compute. reflexivity. Qed.

Example violation_example :
  track_eol_exceeds_base_eol "1.0-22.04" "2030-01-01T00:00:00Z" None sample_world
  = ([OpenFeed;
      Log WARNING "Track 1.0-22.04 has an EOL date 2030-01-01 00:00:00+00:00 that exceeds the base image EOL date 2027-04-01 00:00:00+00:00"],
     inr (Some (dict [("track", "1.0-22.04"); ("base", "ubuntu:22.04");
                      ("track_eol", "2030-01-01"); ("base_eol", "2027-04-01")]))).
Proof. vm_compute. reflexivity. Qed.

Example no_violation_example :
  track_eol_exceeds_base_eol "1.0-22.04" "2027-04-01T00:00:00Z" None sample_world
  = ([OpenFeed], inr None).
Proof. vm_compute. reflexivity. Qed.

(** A record without one of the keys ends the report with a [KeyError]. *)
Example generate_malformed :
  generate_base_eol_exceed_warning [ {[ "track" := "edge" ]} ] = inl (KeyError "base").
Proof. vm_compute. reflexivity. Qed.

End Examples.

(** * The claims *)

(** C1.  Once the base version is known, the lookup of its EOL returns and the
    EOL of the track parses, [track_eol_exceeds_base_eol] returns the violation
    record exactly when the instant of the track's EOL is strictly later than
    the instant of the base's EOL, which is the beginning (UTC) of its day, and
    returns null otherwise. *)
Theorem track_eol_exceeds_base_eol_strictly_later
  (track track_eol : string) (base : option string) (w : world)
  (v : string) (eol_date base_eol : DT.datetime) :
  base_version_id track base = Some v ->
  snd (get_base_eol v "eol" w) = inr base_eol ->
  DT.strptime track_eol DT.EOL_TRACK_FMT = Some eol_date ->
  base_eol = DT.midnight base_eol
  /\ snd (track_eol_exceeds_base_eol track track_eol base w)
     = inr (if DT.to_micros base_eol <? DT.to_micros eol_date
            then Some (violation track v eol_date base_eol)
            else None).
Proof.
  intros Hv Hb Ht.
  apply get_base_eol_ok_inv in Hb as Hinv.
  destruct Hinv as (hdr & rows & row & txt & _ & _ & _ & Hp).
  split; [exact (strptime_distro_midnight _ _ Hp)|].
  rewrite track_eol_exceeds_base_eol_run, Hv, compare_with_base_run, Hb, Ht.
  rewrite gt_micros
    by (eapply strptime_valid; eassumption).
  destruct (DT.to_micros base_eol <? DT.to_micros eol_date); reflexivity.
Qed.

(** One second after midnight of 2024-04-30 exceeds a base EOL dated 2024-04-30. *)
Lemma track_eol_exceeds_base_eol_strictly_later_witness :
  snd (track_eol_exceeds_base_eol "1.0-23.10" "2024-04-30T00:00:01Z" None sample_world)
  = inr (Some (violation "1.0-23.10" "23.10"
                 (DT.mk_datetime 2024 4 30 0 0 1 0) (DT.mk_datetime 2024 4 30 0 0 0 0)))
  /\ snd (track_eol_exceeds_base_eol "1.0-23.10" "2024-04-30T00:00:00Z" None sample_world)
     = inr None.
Proof.
  split.
  - apply (track_eol_exceeds_base_eol_strictly_later
             "1.0-23.10" "2024-04-30T00:00:01Z" None sample_world "23.10"
             (DT.mk_datetime 2024 4 30 0 0 1 0) (DT.mk_datetime 2024 4 30 0 0 0 0));
      vm_compute; reflexivity.
  - apply (track_eol_exceeds_base_eol_strictly_later
             "1.0-23.10" "2024-04-30T00:00:00Z" None sample_world "23.10"
             (DT.mk_datetime 2024 4 30 0 0 0 0) (DT.mk_datetime 2024 4 30 0 0 0 0));
      vm_compute; reflexivity.
Defined.

(** C2.  A track record without the key [end-of-life] is EOL.  With the key
    and a timestamp that parses, the track is EOL exactly when the instant of
    the timestamp is strictly before the instant of the clock: true for a past
    one, false for a future one and false for the instant itself. *)
Theorem is_track_eol_strictly_before_now
  (track_value : gmap string string) (track_name : option string) (w : world) :
  DT.valid (now w) = true ->
  (track_value !! "end-of-life" = None ->
   snd (is_track_eol track_value track_name w) = inr true)
  /\ (forall eol_str eol_date,
        track_value !! "end-of-life" = Some eol_str ->
        DT.strptime eol_str DT.EOL_TRACK_FMT = Some eol_date ->
        snd (is_track_eol track_value track_name w)
        = inr (DT.to_micros eol_date <? DT.to_micros (now w))).
Proof.
  intros Hnow. rewrite is_track_eol_run. split.
  - intros ->. reflexivity.
  - intros eol_str eol_date -> Hp. rewrite Hp.
    rewrite lt_micros; [reflexivity | | exact Hnow].
    eapply strptime_valid; eassumption.
Qed.

Lemma is_track_eol_strictly_before_now_witness :
  snd (is_track_eol ∅ None sample_world) = inr true
  /\ snd (is_track_eol {[ "end-of-life" := "2025-01-01T11:59:59Z" ]} None sample_world)
     = inr true
  /\ snd (is_track_eol {[ "end-of-life" := "2025-01-01T12:00:01Z" ]} None sample_world)
     = inr false.
Proof.
  split; [|split].
  - apply (proj1 (is_track_eol_strictly_before_now ∅ None sample_world eq_refl)).
    reflexivity.
  - apply (proj2 (is_track_eol_strictly_before_now
                    {[ "end-of-life" := "2025-01-01T11:59:59Z" ]} None sample_world eq_refl)
             "2025-01-01T11:59:59Z" (DT.mk_datetime 2025 1 1 11 59 59 0));
      vm_compute; reflexivity.
  - apply (proj2 (is_track_eol_strictly_before_now
                    {[ "end-of-life" := "2025-01-01T12:00:01Z" ]} None sample_world eq_refl)
             "2025-01-01T12:00:01Z" (DT.mk_datetime 2025 1 1 12 0 1 0));
      vm_compute; reflexivity.
Defined.

(** C5.  Called without a base, on a track whose text after the last [-]
    does not match the version pattern, [track_eol_exceeds_base_eol] returns
    null: it raises nothing, whatever the EOL text and the state of the feed,
    and its only effect is the warning; the feed is not opened. *)
Theorem track_eol_exceeds_base_eol_skips_alias
  (track track_eol : string) (base : option string) (w : world) :
  falsy base = true ->
  VERSION_ID_REGEX_match (Str.last_item (Str.split "-" track)) = false ->
  track_eol_exceeds_base_eol track track_eol base w
  = ([Log WARNING (skipped_msg track)], inr None)
  /\ OpenFeed ∉ fst (track_eol_exceeds_base_eol track track_eol base w).
Proof.
  intros Hb Hm.
  assert (E : track_eol_exceeds_base_eol track track_eol base w
              = ([Log WARNING (skipped_msg track)], inr None)).
  { rewrite track_eol_exceeds_base_eol_run. unfold base_version_id.
    now rewrite Hb, Hm. }
  split; [exact E|]. rewrite E. cbn [fst].
  intros Hin. apply list_elem_of_singleton in Hin. discriminate.
Qed.

Lemma track_eol_exceeds_base_eol_skips_alias_witness :
  snd (track_eol_exceeds_base_eol "latest" "2030-01-01T00:00:00Z" None
         (mk_world None (DT.mk_datetime 2025 1 1 0 0 0 0)))
  = inr None.
Proof.
  rewrite (proj1 (track_eol_exceeds_base_eol_skips_alias
                    "latest" "2030-01-01T00:00:00Z" None
                    (mk_world None (DT.mk_datetime 2025 1 1 0 0 0 0))
                    eq_refl eq_refl)).
  reflexivity.
Defined.

(** C6.  With the base version known, an error of the lookup of the base EOL
    is the outcome of [track_eol_exceeds_base_eol], and so is the parse error of
    the track's EOL when the lookup returned; the feed has been opened once
    and nothing else has happened. *)
Theorem track_eol_exceeds_base_eol_propagates
  (track track_eol : string) (base : option string) (w : world) (v : string) :
  base_version_id track base = Some v ->
  (forall e, snd (get_base_eol v "eol" w) = inl e ->
             track_eol_exceeds_base_eol track track_eol base w = ([OpenFeed], inl e))
  /\ (forall base_eol,
        snd (get_base_eol v "eol" w) = inr base_eol ->
        DT.strptime track_eol DT.EOL_TRACK_FMT = None ->
        track_eol_exceeds_base_eol track track_eol base w
        = ([OpenFeed], inl (ParseError track_eol DT.EOL_TRACK_FMT))).
Proof.
  intros Hv. rewrite track_eol_exceeds_base_eol_run, Hv, compare_with_base_run.
  split.
  - intros e ->. reflexivity.
  - intros base_eol -> ->. reflexivity.
Qed.

Lemma track_eol_exceeds_base_eol_propagates_witness :
  (exists msg, snd (track_eol_exceeds_base_eol "1.0-25.04" "2030-01-01T00:00:00Z" None
                      sample_world) = inl (ValueError msg))
  /\ snd (track_eol_exceeds_base_eol "1.0-22.04" "2030-01-01" (Some "ubuntu:22.04")
            sample_world)
     = inl (ParseError "2030-01-01" DT.EOL_TRACK_FMT).
Proof.
  split.
  - exists "Base image 25.04 not found in /usr/share/distro-info/ubuntu.csv".
    rewrite (proj1 (track_eol_exceeds_base_eol_propagates
                      "1.0-25.04" "2030-01-01T00:00:00Z" None sample_world "25.04" eq_refl)
               (ValueError "Base image 25.04 not found in /usr/share/distro-info/ubuntu.csv"));
      [reflexivity|].
    vm_compute. reflexivity.
  - rewrite (proj2 (track_eol_exceeds_base_eol_propagates
                      "1.0-22.04" "2030-01-01" (Some "ubuntu:22.04") sample_world "22.04"
                      eq_refl)
               (DT.mk_datetime 2027 4 1 0 0 0 0)); [reflexivity | |];
      vm_compute; reflexivity.
Defined.

(** C3.  On a feed with its header line, [get_base_eol] returns a date exactly
    when there is a first data row, in the order of the feed, whose text begins
    with [base], the mapping of that row has the column [eol_target], and the
    value of the column parses as a date; the date returned is that one, at
    midnight.  The match is on the text of the row, not on a field. *)
Theorem get_base_eol_first_prefix_row
  (base eol_target hdr : string) (rows : list string) (nw d : DT.datetime) :
  snd (get_base_eol base eol_target (mk_world (Some (hdr :: rows)) nw)) = inr d
  <-> exists row v,
        first_match base rows row
        /\ row_dict (Str.split "," (Str.strip hdr)) row !! eol_target = Some v
        /\ DT.strptime v DT.EOL_DISTRO_FMT = Some d
        /\ d = DT.midnight d.
Proof.
  split.
  - intros H. apply get_base_eol_ok_inv in H
      as (hdr' & rows' & row & v & Hfeed & Hfm & Hv & Hp).
    cbn [feed] in Hfeed. injection Hfeed as <- <-.
    exists row, v. repeat split; try assumption.
    exact (strptime_distro_midnight _ _ Hp).
  - intros (row & v & Hfm & Hv & Hp & _).
    apply first_match_filter in Hfm as [t Ht].
    rewrite get_base_eol_run, Ht, Hv. cbn [snd]. unfold parsed. now rewrite Hp.
Qed.

(** The prefix 22 begins the rows of 22.04 and of 22.10; the first one listed
    gives the date. *)
Lemma get_base_eol_first_prefix_row_witness :
  Str.startswith "22" sample_jammy = true
  /\ Str.startswith "22" sample_kinetic = true
  /\ snd (get_base_eol "22" "eol" sample_world)
     = inr (DT.mk_datetime 2027 4 1 0 0 0 0).
Proof.
  split; [reflexivity | split; [reflexivity|]].
  apply (proj2 (get_base_eol_first_prefix_row "22" "eol" sample_header sample_rows
                  (DT.mk_datetime 2025 1 1 12 0 0 5) (DT.mk_datetime 2027 4 1 0 0 0 0))).
  exists sample_jammy, "2027-04-01". split; [|split; [|split]].
  - exists [sample_precise], [sample_kinetic; sample_mantic].
    split; [reflexivity | split; [|reflexivity]].
    constructor; [reflexivity | constructor].
  - vm_compute. reflexivity.
  - reflexivity.
  - reflexivity.
Defined.

(** C4.  On a feed with its header line, [get_base_eol] raises the
    [ValueError] of the module in exactly two cases: no data row begins with
    [base], or the mapping of the first row that does has no [eol_target].  In
    every other case, when the value of the column parses as a date, it
    returns that date. *)
Theorem get_base_eol_not_found_cases
  (base eol_target hdr : string) (rows : list string) (nw : DT.datetime) :
  let w := mk_world (Some (hdr :: rows)) nw in
  let headers := Str.split "," (Str.strip hdr) in
  ((exists msg, snd (get_base_eol base eol_target w) = inl (ValueError msg))
   <-> (Forall (fun row => Str.startswith base row = false) rows
        \/ exists row, first_match base rows row
                       /\ row_dict headers row !! eol_target = None))
  /\ (forall row v d,
        first_match base rows row ->
        row_dict headers row !! eol_target = Some v ->
        DT.strptime v DT.EOL_DISTRO_FMT = Some d ->
        snd (get_base_eol base eol_target w) = inr d).
Proof.
  intros w headers. subst w headers. rewrite get_base_eol_run. cbn [snd].
  pose proof (first_match_filter base rows) as Hfm.
  pose proof (no_match_filter base rows) as Hnm.
  destruct (List.filter (Str.startswith base) rows) as [|row t] eqn:Hf.
  - split.
    + split; [intros _; left; now apply Hnm | intros _; eauto].
    + intros row v d Hrow. apply Hfm in Hrow as [t Ht]. discriminate.
  - assert (Hrow : forall row', first_match base rows row' -> row' = row).
    { intros row' H. apply Hfm in H as [t' Ht']. congruence. }
    split.
    + split.
      * intros [msg Hmsg]. right. exists row. split; [apply Hfm; eauto|].
        destruct (row_dict _ row !! eol_target) as [v|]; [|reflexivity].
        unfold parsed in Hmsg.
        destruct (DT.strptime v DT.EOL_DISTRO_FMT); discriminate.
      * intros [Hnone | (row' & Hr & Hv)].
        -- apply Hnm in Hnone. discriminate.
        -- apply Hrow in Hr. subst row'. rewrite Hv. eauto.
    + intros row' v d Hr Hv Hp. apply Hrow in Hr. subst row'.
      rewrite Hv. unfold parsed. now rewrite Hp.
Qed.

Lemma get_base_eol_not_found_cases_witness :
  (exists msg, snd (get_base_eol "25" "eol" sample_world) = inl (ValueError msg))
  /\ (exists msg, snd (get_base_eol "22.10" "eol-esm" sample_world) = inl (ValueError msg))
  /\ snd (get_base_eol "22.10" "eol" sample_world) = inr (DT.mk_datetime 2023 7 20 0 0 0 0).
Proof.
  pose proof (get_base_eol_not_found_cases "25" "eol" sample_header sample_rows
                (DT.mk_datetime 2025 1 1 12 0 0 5)) as [H25 _].
  pose proof (get_base_eol_not_found_cases "22.10" "eol-esm" sample_header sample_rows
                (DT.mk_datetime 2025 1 1 12 0 0 5)) as [Hesm _].
  pose proof (get_base_eol_not_found_cases "22.10" "eol" sample_header sample_rows
                (DT.mk_datetime 2025 1 1 12 0 0 5)) as [_ Hok].
  assert (Hkin : first_match "22.10" sample_rows sample_kinetic).
  { exists [sample_precise; sample_jammy], [sample_mantic].
    split; [reflexivity | split; [|reflexivity]].
    repeat constructor. }
  split; [|split].
  - apply H25. left. repeat constructor.
  - apply Hesm. right. exists sample_kinetic. split; [exact Hkin|].
    vm_compute. reflexivity.
  - apply (Hok sample_kinetic "2023-07-20" _ Hkin); vm_compute; reflexivity.
Defined.






(** C10.  An empty base is an omitted base: the computation is the same, the
    version is the text after the last [-] of the track when it matches the
    version pattern, and a version that reaches the lookup is not empty. *)
Theorem empty_base_is_omitted_base (track track_eol : string) (w : world) :
  let seg := Str.last_item (Str.split "-" track) in
  track_eol_exceeds_base_eol track track_eol (Some EmptyString) w
  = track_eol_exceeds_base_eol track track_eol None w
  /\ base_version_id track (Some EmptyString)
     = (if VERSION_ID_REGEX_match seg then Some seg else None)
  /\ track_eol_exceeds_base_eol track track_eol (Some EmptyString) w
     = (if VERSION_ID_REGEX_match seg
        then compare_with_base track track_eol seg w
        else ([Log WARNING (skipped_msg track)], inr None))
  /\ (forall v, base_version_id track (Some EmptyString) = Some v -> v <> EmptyString).
Proof.
  intros seg. split; [reflexivity|].
  assert (E : base_version_id track (Some EmptyString)
              = (if VERSION_ID_REGEX_match seg then Some seg else None)).
  { unfold base_version_id. cbn [falsy]. fold seg.
    destruct (VERSION_ID_REGEX_match seg); reflexivity. }
  split; [exact E|]. split.
  - rewrite track_eol_exceeds_base_eol_run, E.
    destruct (VERSION_ID_REGEX_match seg); reflexivity.
  - intros v. rewrite E.
    destruct (VERSION_ID_REGEX_match seg) eqn:Hm; [|discriminate].
    intros [= <-]. now apply VERSION_ID_REGEX_match_not_empty.
Qed.

Lemma empty_base_is_omitted_base_witness :
  snd (track_eol_exceeds_base_eol "1.0-22.04" "2030-01-01T00:00:00Z" (Some EmptyString)
         sample_world)
  = snd (track_eol_exceeds_base_eol "1.0-22.04" "2030-01-01T00:00:00Z" None sample_world)
  /\ base_version_id "1.0-22.04" (Some EmptyString) = Some "22.04"
  /\ "22.04" <> EmptyString.
Proof.
  pose proof (empty_base_is_omitted_base "1.0-22.04" "2030-01-01T00:00:00Z" sample_world)
    as (E1 & E2 & _ & E4).
  split; [now rewrite E1|]. split; [exact E2|].
  apply E4. exact E2.
Defined.

(** ** The report *)

Section Report.

Lemma NL_append (s : string) : (Str.NL ++ s)%string = String Str.nl s.
Proof. reflexivity. Qed.

Lemma table_record_ok (build : gmap string string) (f : fields4) :
  record_of build f -> table_record build = inr (row_of f).
Proof.
  destruct f as [[[t b] te] be]. intros (Ht & Hb & Hte & Hbe).
  unfold table_record, getitem. now rewrite Ht, Hb, Hte, Hbe.
Qed.

Lemma table_records_ok (builds : list (gmap string string)) (fs : list fields4) :
  Forall2 record_of builds fs -> table_records builds = inr (List.map row_of fs).
Proof.
  induction 1 as [|build f builds fs Hf _ IH]; [reflexivity|].
  cbn [table_records List.map]. now rewrite (table_record_ok _ _ Hf), IH.
Qed.

(** The lines of rows joined by newlines and followed by one. *)
Lemma split_joined_rows (rows : list string) (rest : string) :
  rows <> [] ->
  Forall (fun r => Str.contains Str.nl r = false) rows ->
  Str.split Str.nl (Str.join Str.NL rows ++ Str.NL ++ rest)%string
  = (rows ++ Str.split Str.nl rest)%list.
Proof.
  intros Hne Hall. induction Hall as [|x rows Hx Hall IH]; [congruence|].
  destruct rows as [|y rows].
  - cbn [Str.join]. rewrite NL_append. now rewrite split_line.
  - change (Str.join Str.NL (x :: y :: rows))
      with (x ++ Str.NL ++ Str.join Str.NL (y :: rows))%string.
    rewrite !append_assoc, NL_append, split_line by exact Hx.
    rewrite IH by discriminate. reflexivity.
Qed.

Lemma split_body (rows : list string) :
  Forall (fun r => Str.contains Str.nl r = false) rows ->
  Str.split Str.nl
    (warning_intro ++ Str.NL ++ warning_header ++ Str.NL ++ warning_rule ++ Str.NL
     ++ Str.join Str.NL rows ++ Str.NL ++ warning_advice ++ Str.NL)%string
  = body_lines rows.
Proof.
  intros Hall. unfold body_lines.
  rewrite NL_append, split_line by reflexivity.
  rewrite NL_append, split_line by reflexivity.
  rewrite NL_append, split_line by reflexivity.
  cbn [app]. do 3 f_equal.
  destruct rows as [|x rows].
  - reflexivity.
  - rewrite split_joined_rows by (discriminate || exact Hall). reflexivity.
Qed.

End Report.

(** C8.  For records that have the four fields, the report has the fixed
    title, and its body is the introduction and the two header lines of the
    table, then the rows of the records, one for each and in their order,
    joined by newlines, then the advice.  Read line by line (no field holding
    a newline) the body is these lines; for no record at all it is the
    introduction, the header, an empty line and the advice. *)
Theorem generate_base_eol_exceed_warning_layout
  (builds : list (gmap string string)) (fs : list fields4) :
  Forall2 record_of builds fs ->
  let rows := List.map row_of fs in
  exists body,
    generate_base_eol_exceed_warning builds = inr (warning_title, body)
    /\ body = (warning_intro ++ Str.NL ++ warning_header ++ Str.NL
               ++ warning_rule ++ Str.NL
               ++ Str.join Str.NL rows
               ++ Str.NL ++ warning_advice ++ Str.NL)%string
    /\ length rows = length builds
    /\ (Forall (fun r => Str.contains Str.nl r = false) rows ->
        Str.split Str.nl body = body_lines rows).
Proof.
  intros Hrec rows. eexists. split; [|split; [reflexivity|split]].
  - unfold generate_base_eol_exceed_warning.
    rewrite (table_records_ok _ _ Hrec). reflexivity.
  - subst rows. rewrite length_map. symmetry. exact (Forall2_length _ _ _ Hrec).
  - apply split_body.
Qed.

Lemma generate_base_eol_exceed_warning_layout_witness :
  (exists body,
     generate_base_eol_exceed_warning [] = inr (warning_title, body)
     /\ Str.split Str.nl body
        = [warning_intro; warning_header; warning_rule; EmptyString;
           warning_advice; EmptyString])
  /\ (exists body,
        generate_base_eol_exceed_warning
          [violation "1.0-22.04" "22.04"
             (DT.mk_datetime 2030 1 1 0 0 0 0) (DT.mk_datetime 2027 4 1 0 0 0 0);
           violation "edge" "12"
             (DT.mk_datetime 2030 1 1 0 0 0 0) (DT.mk_datetime 2017 4 28 0 0 0 0)]
        = inr (warning_title, body)
        /\ Str.split Str.nl body
           = [warning_intro; warning_header; warning_rule;
              "| 1.0-22.04 | ubuntu:22.04 | 2030-01-01 | 2027-04-01 |";
              "| edge | ubuntu:12 | 2030-01-01 | 2017-04-28 |";
              warning_advice; EmptyString]).
Proof.
  split.
  - destruct (generate_base_eol_exceed_warning_layout [] [] (List.Forall2_nil _))
      as (body & Hgen & _ & _ & Hlines).
    exists body. split; [exact Hgen|]. apply Hlines. constructor.
  - destruct (generate_base_eol_exceed_warning_layout
                [violation "1.0-22.04" "22.04"
                   (DT.mk_datetime 2030 1 1 0 0 0 0) (DT.mk_datetime 2027 4 1 0 0 0 0);
                 violation "edge" "12"
                   (DT.mk_datetime 2030 1 1 0 0 0 0) (DT.mk_datetime 2017 4 28 0 0 0 0)]
                [("1.0-22.04", "ubuntu:22.04", "2030-01-01", "2027-04-01");
                 ("edge", "ubuntu:12", "2030-01-01", "2017-04-28")])
      as (body & Hgen & _ & _ & Hlines).
    + constructor; [apply violation_fields|].
      constructor; [apply violation_fields | constructor].
    + exists body. split; [exact Hgen|]. apply Hlines.
      repeat constructor.
Defined.

(** * Further properties of the module *)

(** ** The version inferred from a track *)

Section Inference.

Lemma split_app_sep (sep : ascii) (a b : string) :
  Str.split sep (a ++ String sep b)%string = (Str.split sep a ++ Str.split sep b)%list.
Proof.
  induction a as [|c a IH].
  - rewrite append_nil_l. simpl. now rewrite Ascii.eqb_refl.
  - rewrite append_cons. simpl. rewrite IH.
    destruct (Ascii.eqb c sep); [reflexivity|].
    pose proof (split_not_nil sep a) as Hne.
    destruct (Str.split sep a) as [|h t]; [contradiction | reflexivity].
Qed.

Lemma last_item_app (l1 l2 : list string) :
  l2 <> [] -> Str.last_item (l1 ++ l2) = Str.last_item l2.
Proof.
  intros Hne. unfold Str.last_item. induction l1 as [|x l1 IH]; [reflexivity|].
  simpl. destruct (l1 ++ l2)%list as [|y l] eqn:E; [|exact IH].
  apply app_eq_nil in E as [_ ->]. contradiction.
Qed.

(** The last item of the split of a text that ends with a separator and [v]. *)
Lemma last_item_split_after (sep : ascii) (a v : string) :
  Str.contains sep v = false ->
  Str.last_item (Str.split sep (a ++ String sep v)%string) = v.
Proof.
  intros Hv. rewrite split_app_sep, last_item_app by apply split_not_nil.
  now rewrite (split_no_sep sep v Hv).
Qed.

Lemma cls2_shape {A} (p1 p2 : ascii -> bool) (k : Z -> Re.cont A) (s : string) (r : A) :
  Re.cls2 p1 p2 k s = Some r ->
  exists a b s', s = String a (String b s') /\ p1 a = true /\ p2 b = true
                 /\ k (10 * Str.digit_val a + Str.digit_val b) s' = Some r.
Proof.
  unfold Re.cls2. destruct s as [|a [|b s']]; try discriminate.
  destruct (p1 a) eqn:E1; [|discriminate]. destruct (p2 b) eqn:E2; [|discriminate].
  intros H. exists a, b, s'. repeat split; assumption.
Qed.

Lemma cls1_shape {A} (p : ascii -> bool) (k : Z -> Re.cont A) (s : string) (r : A) :
  Re.cls1 p k s = Some r ->
  exists a s', s = String a s' /\ p a = true /\ k (Str.digit_val a) s' = Some r.
Proof.
  unfold Re.cls1. destruct s as [|a s']; try discriminate.
  destruct (p a) eqn:E; [|discriminate].
  intros H. exists a, s'. repeat split; assumption.
Qed.

Lemma digits_1_2_shape {A} (k : Re.cont A) (s : string) (r : A) :
  Re.digits_1_2 k s = Some r ->
  exists a s', s = (a ++ s')%string /\ digits12 a = true /\ k s' = Some r.
Proof.
  unfold Re.digits_1_2. intros H. apply alt_inv in H as [H | H].
  - apply cls2_shape in H as (a & b & s' & -> & Ha & Hb & H).
    exists (String a (String b EmptyString)), s'.
    split; [reflexivity|]. split; [simpl; now rewrite Ha, Hb | exact H].
  - apply cls1_shape in H as (a & s' & -> & Ha & H).
    exists (String a EmptyString), s'.
    split; [reflexivity|]. split; [exact Ha | exact H].
Qed.

Lemma dollar_shape (s : string) :
  Re.dollar s = Some tt <-> s = EmptyString \/ s = Str.NL.
Proof.
  unfold Re.dollar. destruct s as [|c [|c' s']].
  - split; [now left | reflexivity].
  - destruct (Ascii.eqb_spec c Str.nl) as [-> | Hne].
    + split; [now right | reflexivity].
    + split; [discriminate|]. intros [H | H]; [discriminate|].
      injection H as ->. contradiction.
  - split; [discriminate | intros [H | H]; discriminate].
Qed.

(** After one or two digits that are followed by a text that does not begin
    with a digit, the pattern goes on with that text. *)
Lemma digits_1_2_first {A} (k : Re.cont A) (a rest : string) (r : A) :
  digits12 a = true ->
  (forall c rest', rest = String c rest' -> Str.is_digit c = false) ->
  k rest = Some r ->
  Re.digits_1_2 k (a ++ rest)%string = Some r.
Proof.
  intros Ha Hrest Hk. unfold Re.digits_1_2, Re.alt.
  destruct a as [|a1 [|a2 [|a3 a]]]; try discriminate.
  - rewrite append_cons, append_nil_l. simpl in Ha.
    assert (E : Re.cls2 Str.is_digit Str.is_digit (fun _ => k) (String a1 rest) = None).
    { unfold Re.cls2. destruct rest as [|b rest']; [reflexivity|].
      rewrite (Hrest b rest' eq_refl), andb_false_r. reflexivity. }
    rewrite E. unfold Re.cls1. now rewrite Ha.
  - rewrite !append_cons, append_nil_l. simpl in Ha.
    apply andb_true_iff in Ha as [Ha1 Ha2].
    unfold Re.cls2. now rewrite Ha1, Ha2, Hk.
Qed.

Lemma digits12_no_hyphen (a : string) :
  digits12 a = true -> Str.contains "-" a = false.
Proof.
  assert (D : forall c, Str.is_digit c = true -> Ascii.eqb c "-" = false).
  { intros c Hc. destruct (Ascii.eqb_spec c "-") as [-> | _]; [discriminate | reflexivity]. }
  destruct a as [|a1 [|a2 [|a3 a]]]; try discriminate; simpl; intros H.
  - now rewrite (D a1 H).
  - apply andb_true_iff in H as [H1 H2]. now rewrite (D a1 H1), (D a2 H2).
Qed.

End Inference.

(** What the version pattern accepts has this shape. *)
Lemma version_shape (s : string) :
  VERSION_ID_REGEX_match s = true ->
  exists a b t,
    s = (a ++ "." ++ b ++ t)%string
    /\ digits12 a = true /\ digits12 b = true
    /\ (t = EmptyString \/ t = Str.NL).
Proof.
  unfold VERSION_ID_REGEX_match.
  destruct (Re.digits_1_2 _ s) as [u|] eqn:E; [intros _ | discriminate].
  apply digits_1_2_shape in E as (a & s1 & -> & Ha & E).
  apply lit_inv in E as (s2 & -> & E).
  apply digits_1_2_shape in E as (b & t & -> & Hb & E).
  destruct u. apply dollar_shape in E.
  exists a, b, t. repeat split; assumption.
Qed.

(** X1.  The version pattern accepts exactly the texts made of one or two
    digits, a dot and one or two digits, with or without one newline at the
    end (the [$] of the pattern lets a final newline through). *)
Theorem VERSION_ID_REGEX_match_language (s : string) :
  VERSION_ID_REGEX_match s = true
  <-> exists a b t,
        s = (a ++ "." ++ b ++ t)%string
        /\ digits12 a = true /\ digits12 b = true
        /\ (t = EmptyString \/ t = Str.NL).
Proof.
  split; [apply version_shape|].
  intros (a & b & t & -> & Ha & Hb & Ht). unfold VERSION_ID_REGEX_match.
  rewrite (digits_1_2_first _ a ("." ++ b ++ t)%string tt Ha); [reflexivity | |].
  - intros c rest' H. rewrite append_cons in H. injection H as <- _. reflexivity.
  - rewrite append_cons, append_nil_l, lit_same.
    apply (digits_1_2_first _ b t tt Hb).
    + intros c rest' H. destruct Ht as [-> | ->]; [discriminate|].
      injection H as <- _. reflexivity.
    + now apply dollar_shape.
Qed.

Lemma VERSION_ID_REGEX_match_language_witness :
  VERSION_ID_REGEX_match ("22.04" ++ Str.NL) = true
  /\ exists a b t, "9.10" = (a ++ "." ++ b ++ t)%string /\ digits12 a = true.
Proof.
  split.
  - apply (proj2 (VERSION_ID_REGEX_match_language ("22.04" ++ Str.NL))).
    exists "22", "04", Str.NL. repeat split; try reflexivity. now right.
  - destruct (proj1 (VERSION_ID_REGEX_match_language "9.10") eq_refl)
      as (a & b & t & E & Ha & _).
    exists a, b, t. split; assumption.
Defined.

Section InferenceTheorems.

Lemma version_no_hyphen (v : string) :
  VERSION_ID_REGEX_match v = true -> Str.contains "-" v = false.
Proof.
  intros H.
  apply version_shape in H as (a & b & t & -> & Ha & Hb & Ht).
  rewrite !contains_app, (digits12_no_hyphen a Ha), (digits12_no_hyphen b Hb).
  destruct Ht as [-> | ->]; reflexivity.
Qed.

End InferenceTheorems.

(** X2.  A version inferred from a track is the text after the last [-] of
    the track, or the whole track when it has none: it holds no [-] itself,
    the track ends with it, and the version pattern accepts it. *)
Theorem inferred_version_is_last_segment (track v : string) :
  base_version_id track None = Some v ->
  VERSION_ID_REGEX_match v = true
  /\ Str.contains "-" v = false
  /\ (track = v \/ exists before, track = (before ++ "-" ++ v)%string).
Proof.
  unfold base_version_id. cbn [falsy].
  pose proof (last_split_spec "-" track) as [Hno Hseg]. cbv zeta in Hno, Hseg.
  destruct (VERSION_ID_REGEX_match (Str.last_item (Str.split "-" track))) eqn:Hm;
    [|discriminate].
  intros [= <-]. split; [exact Hm|]. split; [exact Hno|].
  destruct Hseg as [[_ Heq] | [before Heq]].
  - left. now rewrite Heq.
  - right. exists before. exact Heq.
Qed.

Lemma inferred_version_is_last_segment_witness :
  Str.contains "-" "22.04" = false
  /\ ("1.0-edge-22.04" = "22.04"
      \/ exists before, "1.0-edge-22.04" = (before ++ "-" ++ "22.04")%string).
Proof.
  exact (proj2 (inferred_version_is_last_segment "1.0-edge-22.04" "22.04" eq_refl)).
Defined.

(** X3.  Whatever precedes the last [-] of a track plays no part in the
    inference: a track that ends with [-] and a text the version pattern
    accepts has that text as its version, and so has the text alone. *)
Theorem version_inferred_from_suffix (name v : string) :
  VERSION_ID_REGEX_match v = true ->
  base_version_id (name ++ "-" ++ v) None = Some v
  /\ base_version_id v None = Some v.
Proof.
  intros Hm. pose proof (version_no_hyphen v Hm) as Hno.
  unfold base_version_id. cbn [falsy]. split.
  - rewrite append_cons, append_nil_l, (last_item_split_after "-" name v Hno).
    now rewrite Hm.
  - rewrite (split_no_sep "-" v Hno). unfold Str.last_item. simpl. now rewrite Hm.
Qed.

Lemma version_inferred_from_suffix_witness :
  base_version_id ("2.1-rc-1" ++ "-" ++ "24.04") None = Some "24.04".
Proof.
  exact (proj1 (version_inferred_from_suffix "2.1-rc-1" "24.04" eq_refl)).
Defined.

(** X4.  A base that ends with [:] leaves the empty text as the version to
    look up; the empty text begins every row, so the track is compared with
    the first data row of the feed, whatever release that row is about. *)
Theorem base_ending_in_colon_reads_first_row
  (track track_eol name hdr row : string) (rows : list string) (nw : DT.datetime) :
  let w := mk_world (Some (hdr :: row :: rows)) nw in
  track_eol_exceeds_base_eol track track_eol (Some (name ++ ":")) w
  = compare_with_base track track_eol EmptyString w
  /\ snd (get_base_eol EmptyString "eol" w)
     = match row_dict (Str.split "," (Str.strip hdr)) row !! "eol" with
       | Some v => parsed v DT.EOL_DISTRO_FMT
       | None => inl (ValueError (no_target_msg EmptyString "eol"))
       end.
Proof.
  intros w. split.
  - rewrite track_eol_exceeds_base_eol_run.
    assert (E : base_version_id track (Some (name ++ ":")) = Some EmptyString).
    { unfold base_version_id.
      assert (F : falsy (Some (name ++ ":")%string) = false)
        by (destruct name; reflexivity).
      rewrite F.
      change (Some (Str.last_item (Str.split ":" (name ++ String ":" EmptyString)%string))
              = Some EmptyString).
      now rewrite (last_item_split_after ":" name EmptyString eq_refl). }
    now rewrite E.
  - subst w. rewrite get_base_eol_run. reflexivity.
Qed.

Lemma base_ending_in_colon_reads_first_row_witness :
  exists record,
    snd (track_eol_exceeds_base_eol "edge" "2020-01-01T00:00:00Z" (Some "ubuntu:")
           sample_world) = inr (Some record)
    /\ record !! "base_eol" = Some "2017-04-28".
Proof.
  exists (violation "edge" EmptyString
            (DT.mk_datetime 2020 1 1 0 0 0 0) (DT.mk_datetime 2017 4 28 0 0 0 0)).
  split; [|reflexivity].
  pose proof (proj1 (base_ending_in_colon_reads_first_row
                       "edge" "2020-01-01T00:00:00Z" "ubuntu" sample_header sample_precise
                       [sample_jammy; sample_kinetic; sample_mantic]
                       (DT.mk_datetime 2025 1 1 12 0 0 5))) as H.
  change (track_eol_exceeds_base_eol "edge" "2020-01-01T00:00:00Z" (Some "ubuntu:")
            sample_world
          = compare_with_base "edge" "2020-01-01T00:00:00Z" EmptyString sample_world) in H.
  rewrite H. vm_compute. reflexivity.
Defined.

(** ** More on the base EOL resolver *)

Section ResolverFacts.

Lemma append_cancel_l (a x y : string) : (a ++ x = a ++ y)%string -> x = y.
Proof.
  induction a as [|c a IH]; [now rewrite !append_nil_l|].
  rewrite !append_cons. intros [= H]. now apply IH.
Qed.

Lemma messages_differ (base eol_target : string) :
  no_target_msg base eol_target <> not_found_msg base.
Proof.
  unfold no_target_msg, not_found_msg. intros H.
  apply append_cancel_l, append_cancel_l in H. cbv in H. discriminate.
Qed.

Lemma startswith_shorter (base ext row : string) :
  Str.startswith (base ++ ext) row = true -> Str.startswith base row = true.
Proof.
  rewrite !startswith_spec. intros [r ->]. exists (ext ++ r)%string.
  apply append_assoc.
Qed.

Lemma filter_first_match (base : string) (before after : list string) (row : string) :
  Forall (fun r => Str.startswith base r = false) before ->
  Str.startswith base row = true ->
  List.filter (Str.startswith base) (before ++ row :: after)
  = row :: List.filter (Str.startswith base) after.
Proof.
  intros Hb Hr. induction Hb as [|r before Hr' _ IH]; simpl.
  - now rewrite Hr.
  - now rewrite Hr'.
Qed.

End ResolverFacts.

(** X5.  [get_base_eol] opens the feed once, whatever happens next.  It
    ends in [OSError] exactly when the feed cannot be opened and in
    [StopIteration] exactly when the feed has no line at all (a case the
    docstring does not name); it raises no [KeyError]; and a parse error it
    raises is about a text of the feed read with the date format. *)
Theorem get_base_eol_exceptions (base eol_target : string) (w : world) :
  fst (get_base_eol base eol_target w) = [OpenFeed]
  /\ (snd (get_base_eol base eol_target w) = inl OSError <-> feed w = None)
  /\ (snd (get_base_eol base eol_target w) = inl StopIteration <-> feed w = Some [])
  /\ (forall key, snd (get_base_eol base eol_target w) <> inl (KeyError key))
  /\ (forall v f, snd (get_base_eol base eol_target w) = inl (ParseError v f) ->
                  f = DT.EOL_DISTRO_FMT /\ DT.strptime v f = None).
Proof.
  split; [apply get_base_eol_trace|].
  assert (T : forall r : result DT.datetime,
             (forall v f, r <> inl (ParseError v f)) ->
             r <> inl OSError -> r <> inl StopIteration ->
             (forall key, r <> inl (KeyError key)) ->
             (r = inl OSError <-> Some ("h" :: @nil string) = None)
             /\ (r = inl StopIteration <-> Some ["h"] = Some (@nil string))
             /\ (forall key, r <> inl (KeyError key))
             /\ (forall v f, r = inl (ParseError v f) ->
                             f = DT.EOL_DISTRO_FMT /\ DT.strptime v f = None)).
  { intros r H1 H2 H3 H4.
    split; [split; [contradiction | discriminate]|].
    split; [split; [contradiction | discriminate]|].
    split; [exact H4|]. intros v f H. now apply H1 in H. }
  destruct w as [[[|hdr rows]|] nw]; cbn [feed].
  - split; [split; discriminate|]. split; [split; reflexivity|].
    split; intros; discriminate.
  - rewrite get_base_eol_run. cbn [snd].
    assert (S : forall r : result DT.datetime,
               (r = inl OSError <-> Some ("h" :: @nil string) = None) ->
               (r = inl OSError <-> Some (hdr :: rows) = None))
      by (intros r [A B]; split; [intros H; now apply A in H | discriminate]).
    assert (S' : forall r : result DT.datetime,
               (r = inl StopIteration <-> Some ["h"] = Some (@nil string)) ->
               (r = inl StopIteration <-> Some (hdr :: rows) = Some [])).
    { intros r [A B]; split; [intros H; now apply A in H | discriminate]. }
    destruct (List.filter (Str.startswith base) rows) as [|row t].
    { destruct (T (inl (ValueError (not_found_msg base)))) as (A & B & C & D);
        try (intros; discriminate).
      split; [now apply S|]. split; [now apply S'|]. split; assumption. }
    destruct (row_dict _ row !! eol_target) as [v|].
    + unfold parsed. destruct (DT.strptime v DT.EOL_DISTRO_FMT) as [d|] eqn:E.
      * destruct (T (inr d)) as (A & B & C & D); try (intros; discriminate).
        split; [now apply S|]. split; [now apply S'|]. split; assumption.
      * split; [split; discriminate|]. split; [split; discriminate|].
        split; [intros; discriminate|].
        intros v' f [= <- <-]. split; [reflexivity | exact E].
    + destruct (T (inl (ValueError (no_target_msg base eol_target)))) as (A & B & C & D);
        try (intros; discriminate).
      split; [now apply S|]. split; [now apply S'|]. split; assumption.
  - split; [split; reflexivity|]. split; [split; discriminate|].
    split; intros; discriminate.
Qed.

(** X6.  Only the header and the first row that begins with [base] count:
    the rows before it (none of which begins with [base]) and all the rows
    after it can be dropped without changing what [get_base_eol] does. *)
Theorem get_base_eol_only_first_match
  (base eol_target hdr row : string) (before after : list string) (nw : DT.datetime) :
  Forall (fun r => Str.startswith base r = false) before ->
  Str.startswith base row = true ->
  get_base_eol base eol_target (mk_world (Some (hdr :: before ++ row :: after)) nw)
  = get_base_eol base eol_target (mk_world (Some [hdr; row]) nw).
Proof.
  intros Hb Hr. rewrite !get_base_eol_run.
  rewrite (filter_first_match base before after row Hb Hr).
  simpl. now rewrite Hr.
Qed.

Lemma get_base_eol_only_first_match_witness :
  get_base_eol "22" "eol" sample_world
  = get_base_eol "22" "eol"
      (mk_world (Some [sample_header; sample_jammy]) (DT.mk_datetime 2025 1 1 12 0 0 5)).
Proof.
  apply (get_base_eol_only_first_match "22" "eol" sample_header sample_jammy
           [sample_precise] [sample_kinetic; sample_mantic]).
  - constructor; [reflexivity | constructor].
  - reflexivity.
Defined.

(** X7.  With column names that do not repeat, the value [get_base_eol]
    reads is the field of the first matching row at the position the column
    has in the header; a row too short to reach that position makes it raise
    the [ValueError] about the missing target. *)
Theorem get_base_eol_column_by_position
  (base eol_target hdr row : string) (rows : list string) (nw : DT.datetime) (i : nat) :
  NoDup (Str.split "," (Str.strip hdr)) ->
  Str.split "," (Str.strip hdr) !! i = Some eol_target ->
  first_match base rows row ->
  snd (get_base_eol base eol_target (mk_world (Some (hdr :: rows)) nw))
  = match Str.split "," (Str.strip row) !! i with
    | Some v => parsed v DT.EOL_DISTRO_FMT
    | None => inl (ValueError (no_target_msg base eol_target))
    end.
Proof.
  intros Hnd Hi Hfm. apply first_match_filter in Hfm as [t Ht].
  rewrite get_base_eol_run, Ht. cbn [snd].
  destruct (Str.split "," (Str.strip row) !! i) as [v|] eqn:Hf.
  - now rewrite (row_dict_column _ row eol_target v i Hnd Hi Hf).
  - assert (Hnone : row_dict (Str.split "," (Str.strip hdr)) row !! eol_target = None).
    { apply row_dict_missing. intros Hin.
      apply elem_of_take in Hin as (j & Hj & Hlt).
      pose proof (NoDup_lookup _ _ _ _ Hnd Hi Hj) as ->.
      apply lookup_ge_None in Hf. lia. }
    now rewrite Hnone.
Qed.

Lemma get_base_eol_column_by_position_witness :
  snd (get_base_eol "22.10" "eol" sample_world)
  = inr (DT.mk_datetime 2023 7 20 0 0 0 0)
  /\ snd (get_base_eol "22.10" "eol-server" sample_world)
     = inl (ValueError "Base image 22.10 does not have eol-server").
Proof.
  assert (Hnd : NoDup (Str.split "," (Str.strip sample_header)))
    by (apply (bool_decide_unpack (NoDup (Str.split "," (Str.strip sample_header))));
        vm_compute; exact I).
  assert (Hfm : first_match "22.10" sample_rows sample_kinetic).
  { exists [sample_precise; sample_jammy], [sample_mantic].
    split; [reflexivity | split; [|reflexivity]]. repeat constructor. }
  split.
  - exact (get_base_eol_column_by_position "22.10" "eol" sample_header sample_kinetic
             sample_rows (DT.mk_datetime 2025 1 1 12 0 0 5) 5%nat Hnd eq_refl Hfm).
  - exact (get_base_eol_column_by_position "22.10" "eol-server" sample_header sample_kinetic
             sample_rows (DT.mk_datetime 2025 1 1 12 0 0 5) 6%nat Hnd eq_refl Hfm).
Defined.

(** X8.  Shortening the prefix never loses a base: when the lookup of a
    prefix returns a date, the lookup of any beginning of that prefix does not
    raise the [ValueError] about a base that is not found. *)
Theorem get_base_eol_shorter_prefix_found
  (base ext eol_target eol_target' : string) (w : world) (d : DT.datetime) :
  snd (get_base_eol (base ++ ext) eol_target w) = inr d ->
  snd (get_base_eol base eol_target' w) <> inl (ValueError (not_found_msg base)).
Proof.
  intros H. apply get_base_eol_ok_inv in H
    as (hdr & rows & row & v & Hfeed & (before & after & -> & _ & Hrow) & _).
  destruct w as [fd nw]. cbn [feed] in Hfeed. subst fd.
  rewrite get_base_eol_run. cbn [snd].
  apply startswith_shorter in Hrow.
  destruct (List.filter (Str.startswith base) (before ++ row :: after)) as [|r t] eqn:Hf.
  - apply no_match_filter in Hf. rewrite Forall_app, Forall_cons in Hf.
    destruct Hf as (_ & Hf & _). congruence.
  - destruct (row_dict _ r !! eol_target') as [x|].
    + unfold parsed. destruct (DT.strptime x DT.EOL_DISTRO_FMT); discriminate.
    + intros E. apply (messages_differ base eol_target').
      exact (f_equal (fun r : result DT.datetime =>
                        match r with inl (ValueError m) => m | _ => EmptyString end) E).
Qed.

Lemma get_base_eol_shorter_prefix_found_witness :
  snd (get_base_eol "2" "eol-esm" sample_world) <> inl (ValueError (not_found_msg "2")).
Proof.
  apply (get_base_eol_shorter_prefix_found "2" "2.10" "eol" "eol-esm" sample_world
           (DT.mk_datetime 2023 7 20 0 0 0 0)).
  vm_compute. reflexivity.
Defined.

Lemma get_base_eol_exceptions_witness :
  snd (get_base_eol "22.04" "eol" (mk_world (Some []) (DT.mk_datetime 2025 1 1 0 0 0 0)))
  = inl StopIteration.
Proof.
  apply (proj2 (proj1 (proj2 (proj2 (get_base_eol_exceptions "22.04" "eol"
           (mk_world (Some []) (DT.mk_datetime 2025 1 1 0 0 0 0))))))).
  reflexivity.
Defined.

(** ** More on the track EOL evaluator *)

(** X9.  [is_track_eol] logs one message exactly when it answers true: an
    error when the key is missing, a warning when the EOL has passed.  When it
    answers false it logs nothing, and the only exception it raises is the
    parse error of the text stored under the key, before anything is logged. *)
Theorem is_track_eol_diagnostics
  (track_value : gmap string string) (track_name : option string) (w : world) :
  match is_track_eol track_value track_name w with
  | (t, inr true) =>
      exists lvl msg, t = [Log lvl msg]
                      /\ (lvl = ERROR <-> track_value !! "end-of-life" = None)
  | (t, inr false) => t = []
  | (t, inl e) =>
      t = [] /\ exists s, track_value !! "end-of-life" = Some s
                          /\ DT.strptime s DT.EOL_TRACK_FMT = None
                          /\ e = ParseError s DT.EOL_TRACK_FMT
  end.
Proof.
  unfold is_track_eol.
  destruct (track_value !! "end-of-life") as [s|] eqn:Hk.
  - unfold bind. rewrite strptime_run. unfold parsed.
    destruct (DT.strptime s DT.EOL_TRACK_FMT) as [d|] eqn:Hp.
    + cbn. destruct (DT.lt d (now w)); cbn; [|reflexivity].
      eexists WARNING, _. split; [reflexivity|]. split; discriminate.
    + split; [reflexivity|]. exists s. repeat split. exact Hp.
  - cbn. eexists ERROR, _. split; [reflexivity|]. split; reflexivity.
Qed.

(** X10.  Time only moves a track towards EOL: a track that is EOL at one
    instant is EOL at every later instant. *)
Theorem is_track_eol_stays_eol
  (track_value : gmap string string) (track_name : option string) (w1 w2 : world) :
  DT.valid (now w1) = true -> DT.valid (now w2) = true ->
  DT.to_micros (now w1) <= DT.to_micros (now w2) ->
  snd (is_track_eol track_value track_name w1) = inr true ->
  snd (is_track_eol track_value track_name w2) = inr true.
Proof.
  intros V1 V2 Hle. rewrite !is_track_eol_run.
  destruct (track_value !! "end-of-life") as [s|]; [|trivial].
  destruct (DT.strptime s DT.EOL_TRACK_FMT) as [d|] eqn:Hp; [|trivial].
  pose proof (strptime_valid _ _ _ Hp) as [Vd _].
  rewrite !lt_micros by assumption.
  intros [= H]. f_equal. apply Z.ltb_lt in H. apply Z.ltb_lt. lia.
Qed.

Lemma is_track_eol_stays_eol_witness :
  snd (is_track_eol {[ "end-of-life" := "2025-01-01T11:59:59Z" ]} None
         (mk_world None (DT.mk_datetime 2031 6 1 0 0 0 0)))
  = inr true.
Proof.
  apply (is_track_eol_stays_eol _ None sample_world
           (mk_world None (DT.mk_datetime 2031 6 1 0 0 0 0)));
    vm_compute; congruence.
Defined.

(** X11.  Every instant of the calendar, written in the layout
    YYYY-MM-DDTHH:MM:SSZ with all its digits, is read back as that instant:
    the track is EOL exactly when the instant is strictly before the clock. *)
Theorem is_track_eol_of_track_text
  (track_value : gmap string string) (track_name : option string) (w : world)
  (d : DT.datetime) :
  DT.valid d = true -> DT.microsecond d = 0 -> DT.valid (now w) = true ->
  track_value !! "end-of-life" = Some (track_text d) ->
  snd (is_track_eol track_value track_name w)
  = inr (DT.to_micros d <? DT.to_micros (now w)).
Proof.
  intros Vd Hus Vn Hk.
  rewrite is_track_eol_run, Hk, (strptime_track_text d Vd Hus).
  now rewrite lt_micros.
Qed.

Lemma is_track_eol_of_track_text_witness :
  track_text (DT.mk_datetime 2024 2 29 23 59 59 0) = "2024-02-29T23:59:59Z"
  /\ snd (is_track_eol {[ "end-of-life" := "2024-02-29T23:59:59Z" ]} None sample_world)
     = inr true.
Proof.
  split; [reflexivity|].
  apply (is_track_eol_of_track_text {[ "end-of-life" := "2024-02-29T23:59:59Z" ]} None
           sample_world (DT.mk_datetime 2024 2 29 23 59 59 0));
    vm_compute; reflexivity.
Defined.

(** ** More on the cross-validator *)

Section CrossValidatorFacts.

(** A record returned is the record of lines 141 to 146. *)
Lemma violation_inv (track track_eol : string) (base : option string) (w : world)
  (record : gmap string string) :
  snd (track_eol_exceeds_base_eol track track_eol base w) = inr (Some record) ->
  exists v td bd,
    base_version_id track base = Some v
    /\ snd (get_base_eol v "eol" w) = inr bd
    /\ DT.strptime track_eol DT.EOL_TRACK_FMT = Some td
    /\ DT.gt td bd = true
    /\ record = violation track v td bd.
Proof.
  rewrite track_eol_exceeds_base_eol_run.
  destruct (base_version_id track base) as [v|]; [|discriminate].
  rewrite compare_with_base_run.
  destruct (snd (get_base_eol v "eol" w)) as [e | bd] eqn:Hb; [discriminate|].
  destruct (DT.strptime track_eol DT.EOL_TRACK_FMT) as [td|] eqn:Ht; [|discriminate].
  destruct (DT.gt td bd) eqn:Hgt; [|discriminate].
  cbn [snd]. intros [= <-]. exists v, td, bd. repeat split; assumption.
Qed.

(** The day of an instant that is after a midnight is not before that day. *)
Lemma midnight_le (td bd : DT.datetime) :
  DT.valid td = true -> bd = DT.midnight bd ->
  DT.to_micros bd < DT.to_micros td ->
  DT.to_micros bd <= DT.to_micros (DT.midnight td).
Proof.
  intros Vt Hmid Hlt. rewrite Hmid in *.
  destruct td as [y m d h mi s us], bd as [y' m' d' h' mi' s' us'].
  unfold DT.valid in Vt. cbn [DT.year DT.month DT.day DT.hour DT.minute DT.second
                                DT.microsecond] in Vt.
  apply andb_true_iff in Vt as [_ Vt]. apply valid_time_spec in Vt.
  unfold DT.to_micros, DT.toordinal, DT.midnight in *.
  cbn [DT.year DT.month DT.day DT.hour DT.minute DT.second DT.microsecond] in *.
  lia.
Qed.

End CrossValidatorFacts.

(** X12.  The events tell the outcomes of [track_eol_exceeds_base_eol]
    apart.  A record comes with the feed opened and one warning; null comes
    either with the warning of the skip and the feed not opened (no version
    could be inferred) or with the feed opened and nothing logged (the track
    does not outlive its base); an exception comes with the feed opened and
    nothing logged. *)
Theorem track_eol_exceeds_base_eol_diagnostics
  (track track_eol : string) (base : option string) (w : world) :
  match track_eol_exceeds_base_eol track track_eol base w with
  | (t, inr (Some record)) => exists msg, t = [OpenFeed; Log WARNING msg]
  | (t, inr None) =>
      (base_version_id track base = None /\ t = [Log WARNING (skipped_msg track)])
      \/ (base_version_id track base <> None /\ t = [OpenFeed])
  | (t, inl e) => base_version_id track base <> None /\ t = [OpenFeed]
  end.
Proof.
  rewrite track_eol_exceeds_base_eol_run.
  destruct (base_version_id track base) as [v|]; [|left; split; reflexivity].
  rewrite compare_with_base_run.
  destruct (snd (get_base_eol v "eol" w)) as [e | bd]; [split; [discriminate | reflexivity]|].
  destruct (DT.strptime track_eol DT.EOL_TRACK_FMT) as [td|];
    [|split; [discriminate | reflexivity]].
  destruct (DT.gt td bd).
  - eexists. reflexivity.
  - right. split; [discriminate | reflexivity].
Qed.

(** X13.  A later EOL of the track keeps the violation: if a track EOL
    exceeds the base EOL, so does every track EOL that is not earlier. *)
Theorem later_track_eol_still_exceeds
  (track track_eol track_eol' : string) (base : option string) (w : world)
  (d d' : DT.datetime) (record : gmap string string) :
  DT.strptime track_eol DT.EOL_TRACK_FMT = Some d ->
  DT.strptime track_eol' DT.EOL_TRACK_FMT = Some d' ->
  DT.to_micros d <= DT.to_micros d' ->
  snd (track_eol_exceeds_base_eol track track_eol base w) = inr (Some record) ->
  exists record',
    snd (track_eol_exceeds_base_eol track track_eol' base w) = inr (Some record').
Proof.
  intros Hd Hd' Hle H.
  apply violation_inv in H as (v & td & bd & Hv & Hb & Ht & Hgt & _).
  rewrite Hd in Ht. injection Ht as <-.
  apply get_base_eol_ok_inv in Hb as Hinv.
  destruct Hinv as (hdr & rows & row & txt & _ & _ & _ & Hp).
  pose proof (strptime_valid _ _ _ Hd) as [Vd _].
  pose proof (strptime_valid _ _ _ Hd') as [Vd' _].
  pose proof (strptime_valid _ _ _ Hp) as [Vb _].
  rewrite gt_micros in Hgt by assumption. apply Z.ltb_lt in Hgt.
  rewrite track_eol_exceeds_base_eol_run, Hv, compare_with_base_run, Hb, Hd'.
  assert (G : DT.gt d' bd = true)
    by (rewrite gt_micros by assumption; apply Z.ltb_lt; lia).
  rewrite G. eexists. reflexivity.
Qed.

Lemma later_track_eol_still_exceeds_witness :
  exists record',
    snd (track_eol_exceeds_base_eol "1.0-22.04" "2031-06-01T00:00:00Z" None sample_world)
    = inr (Some record').
Proof.
  apply (later_track_eol_still_exceeds "1.0-22.04" "2030-01-01T00:00:00Z"
           "2031-06-01T00:00:00Z" None sample_world
           (DT.mk_datetime 2030 1 1 0 0 0 0) (DT.mk_datetime 2031 6 1 0 0 0 0)
           (violation "1.0-22.04" "22.04"
              (DT.mk_datetime 2030 1 1 0 0 0 0) (DT.mk_datetime 2027 4 1 0 0 0 0)));
    vm_compute; congruence.
Defined.

(** X14.  In a record for a base whose EOL is in the year 1000 or later the
    two dates are in order: both texts read back as dates, and the EOL of the
    base is not after the EOL of the track (they are the same day when the
    track ends later on the day the base ends). *)
Theorem violation_dates_in_order
  (track track_eol : string) (base : option string) (w : world)
  (record : gmap string string) (v : string) (base_eol : DT.datetime) :
  snd (track_eol_exceeds_base_eol track track_eol base w) = inr (Some record) ->
  base_version_id track base = Some v ->
  snd (get_base_eol v "eol" w) = inr base_eol ->
  1000 <= DT.year base_eol ->
  exists st sb dt,
    record !! "track_eol" = Some st /\ record !! "base_eol" = Some sb
    /\ DT.strptime st DT.EOL_DISTRO_FMT = Some dt
    /\ DT.strptime sb DT.EOL_DISTRO_FMT = Some base_eol
    /\ DT.to_micros base_eol <= DT.to_micros dt.
Proof.
  intros H Hv' Hb' Hy.
  apply violation_inv in H as (v0 & td & bd & Hv & Hb & Ht & Hgt & ->).
  rewrite Hv' in Hv. injection Hv as <-.
  rewrite Hb' in Hb. injection Hb as <-.
  apply get_base_eol_ok_inv in Hb' as (hdr & rows & row & txt & _ & _ & _ & Hp).
  pose proof (strptime_valid _ _ _ Ht) as [Vt _].
  pose proof (strptime_valid _ _ _ Hp) as [Vb _].
  pose proof (strptime_distro_midnight _ _ Hp) as Hmid.
  assert (Hyt : 1000 <= DT.year td).
  { unfold DT.gt, DT.fields in Hgt. cbn [DT.cmp_tuple] in Hgt.
    destruct (Z.compare_spec (DT.year td) (DT.year base_eol)); [lia | discriminate | lia]. }
  rewrite gt_micros in Hgt by assumption. apply Z.ltb_lt in Hgt.
  destruct (violation_fields track v td base_eol) as (_ & _ & Hte & Hbe).
  exists (DT.strftime_distro td), (DT.strftime_distro base_eol), (DT.midnight td).
  split; [exact Hte|]. split; [exact Hbe|].
  split; [now apply strptime_strftime|].
  split; [rewrite (strptime_strftime base_eol Vb Hy); now rewrite <- Hmid|].
  now apply midnight_le.
Qed.

Lemma violation_dates_in_order_witness :
  exists st sb dt,
    violation "1.0-23.10" "23.10"
      (DT.mk_datetime 2024 4 30 0 0 1 0) (DT.mk_datetime 2024 4 30 0 0 0 0)
      !! "track_eol" = Some st
    /\ violation "1.0-23.10" "23.10"
         (DT.mk_datetime 2024 4 30 0 0 1 0) (DT.mk_datetime 2024 4 30 0 0 0 0)
         !! "base_eol" = Some sb
    /\ DT.strptime st DT.EOL_DISTRO_FMT = Some dt
    /\ DT.strptime sb DT.EOL_DISTRO_FMT = Some (DT.mk_datetime 2024 4 30 0 0 0 0)
    /\ DT.to_micros (DT.mk_datetime 2024 4 30 0 0 0 0) <= DT.to_micros dt.
Proof.
  apply (violation_dates_in_order "1.0-23.10" "2024-04-30T00:00:01Z" None sample_world
           _ "23.10" (DT.mk_datetime 2024 4 30 0 0 0 0)).
  - vm_compute. reflexivity.
  - reflexivity.
  - vm_compute. reflexivity.
  - cbn. lia.
Defined.

(** ** More on the report *)

Section ReportFacts.

Lemma table_record_cases (build : gmap string string) :
  match first_missing build with
  | Some key => table_record build = inl (KeyError key)
  | None => exists f, record_of build f /\ table_record build = inr (row_of f)
  end.
Proof.
  unfold first_missing, table_record, getitem.
  destruct (build !! "track") as [t|] eqn:Ht; [|reflexivity].
  destruct (build !! "base") as [b|] eqn:Hb; [|reflexivity].
  destruct (build !! "track_eol") as [te|] eqn:Hte; [|reflexivity].
  destruct (build !! "base_eol") as [be|] eqn:Hbe; [|reflexivity].
  exists (t, b, te, be). split; [|reflexivity]. repeat split; assumption.
Qed.

Lemma complete_first_missing (build : gmap string string) :
  complete build <-> first_missing build = None.
Proof.
  unfold complete, first_missing. split.
  - intros ([t ->] & [b ->] & [te ->] & [be ->]). reflexivity.
  - destruct (build !! "track"); [|discriminate].
    destruct (build !! "base"); [|discriminate].
    destruct (build !! "track_eol"); [|discriminate].
    destruct (build !! "base_eol"); [|discriminate].
    intros _. repeat split; eauto.
Qed.

Lemma table_records_complete (builds : list (gmap string string)) :
  Forall complete builds ->
  exists fs, Forall2 record_of builds fs /\ table_records builds = inr (List.map row_of fs).
Proof.
  induction 1 as [|build builds Hc _ (fs & Hfs & IH)].
  - exists []. split; [constructor | reflexivity].
  - apply complete_first_missing in Hc.
    pose proof (table_record_cases build) as Hb. rewrite Hc in Hb.
    destruct Hb as (f & Hf & Hrow).
    exists (f :: fs). split; [now constructor|].
    cbn [table_records List.map]. now rewrite Hrow, IH.
Qed.

Lemma table_records_first_bad (good rest : list (gmap string string))
  (bad : gmap string string) (key : string) :
  Forall complete good -> first_missing bad = Some key ->
  table_records (good ++ bad :: rest) = inl (KeyError key).
Proof.
  intros Hgood Hbad. induction Hgood as [|build good Hc _ IH].
  - cbn [app table_records]. pose proof (table_record_cases bad) as Hb.
    rewrite Hbad in Hb. now rewrite Hb.
  - apply complete_first_missing in Hc.
    pose proof (table_record_cases build) as Hb. rewrite Hc in Hb.
    destruct Hb as (f & _ & Hrow).
    change ((build :: good) ++ bad :: rest)%list with (build :: (good ++ bad :: rest))%list.
    cbn [table_records]. now rewrite Hrow, IH.
Qed.

(** A list is all complete records, or has a first record that is not. *)
Lemma complete_or_first_bad (builds : list (gmap string string)) :
  Forall complete builds
  \/ exists good bad rest key,
       builds = (good ++ bad :: rest)%list
       /\ Forall complete good /\ first_missing bad = Some key.
Proof.
  induction builds as [|build builds IH]; [left; constructor|].
  destruct (first_missing build) as [key|] eqn:Hm.
  - right. exists [], build, builds, key. repeat split; [constructor | exact Hm].
  - apply complete_first_missing in Hm. destruct IH as [IH | (good & bad & rest & key & -> & Hg & Hb)].
    + left. now constructor.
    + right. exists (build :: good), bad, rest, key.
      repeat split; [now constructor | exact Hb].
Qed.

End ReportFacts.

(** X15.  The report never fails on what the cross-validator returns: for
    any list of records that calls of [track_eol_exceeds_base_eol] returned,
    [generate_base_eol_exceed_warning] gives the title and a body. *)
Theorem report_accepts_validator_records (builds : list (gmap string string)) :
  Forall (fun build =>
            exists track track_eol base w,
              snd (track_eol_exceeds_base_eol track track_eol base w) = inr (Some build))
    builds ->
  exists body, generate_base_eol_exceed_warning builds = inr (warning_title, body).
Proof.
  intros H.
  assert (Hc : Forall complete builds).
  { eapply Forall_impl; [exact H|]. cbn beta.
    intros build (track & te & base & w & Hb).
    apply violation_inv in Hb as (v & td & bd & _ & _ & _ & _ & ->).
    destruct (violation_fields track v td bd) as (H1 & H2 & H3 & H4).
    unfold complete. rewrite H1, H2, H3, H4. repeat split; eauto. }
  destruct (table_records_complete builds Hc) as (fs & _ & Hrows).
  unfold generate_base_eol_exceed_warning. rewrite Hrows. eexists. reflexivity.
Qed.

Lemma report_accepts_validator_records_witness :
  exists body,
    generate_base_eol_exceed_warning
      [violation "1.0-22.04" "22.04"
         (DT.mk_datetime 2030 1 1 0 0 0 0) (DT.mk_datetime 2027 4 1 0 0 0 0)]
    = inr (warning_title, body).
Proof.
  apply report_accepts_validator_records.
  constructor; [|constructor].
  exists "1.0-22.04", "2030-01-01T00:00:00Z", None, sample_world.
  vm_compute. reflexivity.
Defined.

(** X16.  [generate_base_eol_exceed_warning] returns exactly when every
    record has the four keys [track], [base], [track_eol] and [base_eol];
    keys beyond these are ignored. *)
Theorem generate_returns_iff_complete (builds : list (gmap string string)) :
  (exists title body, generate_base_eol_exceed_warning builds = inr (title, body))
  <-> Forall complete builds.
Proof.
  split.
  - intros (title & body & H).
    destruct (complete_or_first_bad builds)
      as [Hc | (good & bad & rest & key & -> & Hg & Hb)]; [exact Hc|].
    unfold generate_base_eol_exceed_warning in H.
    rewrite (table_records_first_bad good rest bad key Hg Hb) in H. discriminate.
  - intros Hc. destruct (table_records_complete builds Hc) as (fs & _ & Hrows).
    unfold generate_base_eol_exceed_warning. rewrite Hrows. eexists _, _. reflexivity.
Qed.

Lemma generate_returns_iff_complete_witness :
  exists title body,
    generate_base_eol_exceed_warning
      [ <["note" := "kept"]>
          (violation "edge" "12"
             (DT.mk_datetime 2030 1 1 0 0 0 0) (DT.mk_datetime 2017 4 28 0 0 0 0)) ]
    = inr (title, body).
Proof.
  apply (proj2 (generate_returns_iff_complete _)).
  constructor; [|constructor].
  unfold complete. repeat split; vm_compute; eauto.
Defined.

(** X17.  When a record lacks a key, the report ends in the [KeyError] of
    the first incomplete record of the list, for the first key it lacks in
    the order [track], [base], [track_eol], [base_eol]; the records after it
    are not looked at. *)
Theorem generate_key_error
  (good rest : list (gmap string string)) (bad : gmap string string) (key : string) :
  Forall complete good -> first_missing bad = Some key ->
  generate_base_eol_exceed_warning (good ++ bad :: rest) = inl (KeyError key).
Proof.
  intros Hg Hb. unfold generate_base_eol_exceed_warning.
  now rewrite (table_records_first_bad good rest bad key Hg Hb).
Qed.

Lemma generate_key_error_witness :
  generate_base_eol_exceed_warning
    [violation "edge" "12"
       (DT.mk_datetime 2030 1 1 0 0 0 0) (DT.mk_datetime 2017 4 28 0 0 0 0);
     {[ "track" := "1.0-22.04"; "base" := "ubuntu:22.04" ]};
     ∅]
  = inl (KeyError "track_eol").
Proof.
  apply (generate_key_error
           [violation "edge" "12"
              (DT.mk_datetime 2030 1 1 0 0 0 0) (DT.mk_datetime 2017 4 28 0 0 0 0)]
           [∅]
           {[ "track" := "1.0-22.04"; "base" := "ubuntu:22.04" ]} "track_eol").
  - constructor; [|constructor]. unfold complete. repeat split; vm_compute; eauto.
  - vm_compute. reflexivity.
Defined.

(** ** The explicit base and the inferred one *)

Section Agreement.

Lemma digits12_lacks (c : ascii) (a : string) :
  Str.is_digit c = false -> digits12 a = true -> Str.contains c a = false.
Proof.
  intros Hc.
  assert (D : forall x, Str.is_digit x = true -> Ascii.eqb x c = false).
  { intros x Hx. destruct (Ascii.eqb_spec x c) as [-> | _]; [congruence | reflexivity]. }
  destruct a as [|a1 [|a2 [|a3 a]]]; try discriminate; simpl; intros H.
  - now rewrite (D a1 H).
  - apply andb_true_iff in H as [H1 H2]. now rewrite (D a1 H1), (D a2 H2).
Qed.

Lemma version_no_colon (v : string) :
  VERSION_ID_REGEX_match v = true -> Str.contains ":" v = false.
Proof.
  intros H. apply version_shape in H as (a & b & t & -> & Ha & Hb & Ht).
  rewrite !contains_app, (digits12_lacks ":" a eq_refl Ha), (digits12_lacks ":" b eq_refl Hb).
  destruct Ht as [-> | ->]; reflexivity.
Qed.

End Agreement.

(** X18.  Naming the base does not change the check when the name ends with
    [:] and the version the track itself ends with: the call with that base
    and the call without a base are the same computation. *)
Theorem explicit_base_agrees_with_inferred
  (track track_eol name v : string) (w : world) :
  base_version_id track None = Some v ->
  track_eol_exceeds_base_eol track track_eol (Some (name ++ ":" ++ v)) w
  = track_eol_exceeds_base_eol track track_eol None w.
Proof.
  intros Hv. rewrite !track_eol_exceeds_base_eol_run, Hv.
  assert (Hm : VERSION_ID_REGEX_match v = true).
  { unfold base_version_id in Hv. cbn [falsy] in Hv.
    destruct (VERSION_ID_REGEX_match _) eqn:E; [|discriminate].
    injection Hv as <-. exact E. }
  assert (E : base_version_id track (Some (name ++ ":" ++ v)) = Some v).
  { unfold base_version_id.
    assert (F : falsy (Some (name ++ ":" ++ v)%string) = false)
      by (destruct name; reflexivity).
    rewrite F.
    change (Some (Str.last_item (Str.split ":" (name ++ String ":" v)%string)) = Some v).
    now rewrite (last_item_split_after ":" name v (version_no_colon v Hm)). }
  now rewrite E.
Qed.

Lemma explicit_base_agrees_with_inferred_witness :
  track_eol_exceeds_base_eol "1.0-22.04" "2030-01-01T00:00:00Z" (Some "ubuntu:22.04")
    sample_world
  = track_eol_exceeds_base_eol "1.0-22.04" "2030-01-01T00:00:00Z" None sample_world.
Proof.
  exact (explicit_base_agrees_with_inferred "1.0-22.04" "2030-01-01T00:00:00Z"
           "ubuntu" "22.04" sample_world eq_refl).
Defined.
